(** * rstfmt: a shallow embedding of the reStructuredText formatter

    The development follows [rstfmt/rstfmt.py]: the Python string
    primitives the formatter relies on, the iterator helpers, the format
    context, the span merger and word wrapper, the per-node formatting
    rules with their dispatcher, and then the properties of each.

    Conventions.  A Python [str] is a list of Unicode code points.  A
    generator is the list of the values it yields once drained; a Python
    exception that escapes while a generator is drained is [None] in the
    [option] monad.  Widths, depths and lengths are Python integers, [Z]. *)

From Stdlib Require Import List ZArith NArith Bool Lia String Ascii.
Import ListNotations.

Local Open Scope Z_scope.
Set Warnings "-register-all".

(** ** Python strings *)

Definition char := N.
Definition str := list char.

Module Py.

(** Literals are written as Rocq strings and read as code points. *)
Definition of_string (s : string) : str :=
  List.map N_of_ascii (list_ascii_of_string s).

Definition len {A} (s : list A) : Z := Z.of_nat (List.length s).

(** Truthiness of a sequence: [bool(s)]. *)
Definition truthy {A} (s : list A) : bool :=
  match s with [] => false | _ :: _ => true end.

Definition mem (c : char) (s : list char) : bool := List.existsb (N.eqb c) s.

Definition str_eqb (a b : str) : bool :=
  if list_eq_dec N.eq_dec a b then true else false.

(** [str.isspace] on one code point: the characters [str.split()]
    treats as separators. *)
Definition isspace (c : char) : bool :=
  (((9 <=? c) && (c <=? 13)) || ((28 <=? c) && (c <=? 32))
   || (c =? 133) || (c =? 160) || (c =? 5760)
   || ((8192 <=? c) && (c <=? 8202))
   || (c =? 8232) || (c =? 8233) || (c =? 8239) || (c =? 8287)
   || (c =? 12288))%N.

(** [s.split()]: the maximal runs of non-whitespace characters. *)
Fixpoint split (s : str) : list str :=
  match s with
  | [] => []
  | c :: s' =>
      let rest := split s' in
      if isspace c then rest
      else match s' with
           | [] => [[c]]
           | c' :: _ =>
               if isspace c' then [c] :: rest
               else match rest with
                    | w :: ws => (c :: w) :: ws
                    | [] => [[c]]
                    end
           end
  end.

(** [s.split(sep)] for a one-character separator: never empty. *)
Fixpoint split_on (sep : char) (s : str) : list str :=
  match s with
  | [] => [[]]
  | c :: s' =>
      if N.eqb c sep then [] :: split_on sep s'
      else match split_on sep s' with
           | w :: ws => (c :: w) :: ws
           | [] => [[c]]
           end
  end.

(** [sep.join(l)]. *)
Fixpoint join (sep : str) (l : list str) : str :=
  match l with
  | [] => []
  | [x] => x
  | x :: rest => x ++ sep ++ join sep rest
  end.

(** [c * n]: empty when [n <= 0]. *)
Definition times (c : char) (n : Z) : str := List.repeat c (Z.to_nat n).

(** [s.ljust(w)]: pads with blanks on the right, never truncates. *)
Definition ljust (s : str) (w : Z) : str := s ++ times 32%N (w - len s).

(** [s[i]] with Python's negative indices; [None] is [IndexError]. *)
Definition getitem {A} (s : list A) (i : Z) : option A :=
  if 0 <=? i then List.nth_error s (Z.to_nat i)
  else if - len s <=? i then List.nth_error s (Z.to_nat (len s + i))
  else None.

(** [s.upper()] on the ASCII letters. *)
Definition upper (s : str) : str :=
  List.map (fun c => if ((97 <=? c) && (c <=? 122))%N then (c - 32)%N else c) s.

End Py.

Definition lit := Py.of_string.

(** ** Error monad for escaping exceptions *)

Definition bind {A B} (m : option A) (k : A -> option B) : option B :=
  match m with Some a => k a | None => None end.

Notation "x <- m ;; k" := (bind m (fun x => k))
  (at level 61, m at next level, right associativity).

Fixpoint sequence {A} (l : list (option A)) : option (list A) :=
  match l with
  | [] => Some []
  | m :: rest => x <- m ;; xs <- sequence rest ;; Some (x :: xs)
  end.

(** ** Constants *)

(** The double quote, written by code point. *)
Definition dquote : str := [34%N].

Definition section_chars : str := lit "=-^" ++ dquote ++ lit "~+".

Definition space_chars : str := [32; 9; 10; 13; 11; 12]%N.
Definition pre_markup_break_chars : str :=
  space_chars ++ lit "-:/'" ++ dquote ++ lit "<([{".
Definition post_markup_break_chars : str :=
  space_chars ++ lit "-.,:;!?\/'" ++ dquote ++ lit ")]}>".


(** ** Iterator helpers *)

Definition chain {A} (xss : list (list A)) : list A := List.concat xss.

Definition intersperse {A} (val : A) (xs : list A) : list A :=
  match xs with
  | [] => []
  | x :: rest => x :: List.flat_map (fun y => [val; y]) rest
  end.

(** [zip(chain([True], repeat(False)), it)]. *)
Definition enum_first {A} (xs : list A) : list (bool * A) :=
  match xs with
  | [] => []
  | x :: rest => (true, x) :: List.map (fun y => (false, y)) rest
  end.

Definition prepend_if_any {A} (f : A) (xs : list A) : list A :=
  match xs with
  | [] => []
  | x :: rest => f :: x :: rest
  end.

Definition chain_intersperse {A} (val : A) (xss : list (list A)) : list A :=
  match xss with
  | [] => []
  | x :: rest => x ++ List.flat_map (fun y => val :: y) rest
  end.

Fixpoint pairwise {A} (xs : list A) : list (A * A) :=
  match xs with
  | a :: ((b :: _) as rest) => (a, b) :: pairwise rest
  | _ => []
  end.

(** [itertools.zip_longest] over the lists [xss]: one tuple per position up to the
    longest argument, [None] where an argument has run out. *)
Definition zip_longest {A} (xss : list (list A)) : list (list (option A)) :=
  List.map (fun k => List.map (fun xs => List.nth_error xs k) xss)
           (List.seq 0 (List.fold_right Nat.max 0%nat (List.map (@List.length A) xss))).

(** ** Format context *)

Record FormatContext := mkFormatContext {
  section_depth : Z;
  width : option Z;
  bullet : option str;
  colwidths : option (list Z)
}.

Definition indent (self : FormatContext) (n : Z) : FormatContext :=
  match width self with
  | None => self
  | Some w =>
      mkFormatContext (section_depth self) (Some (Z.max 1 (w - n)))
                      (bullet self) (colwidths self)
  end.

Definition in_section (self : FormatContext) : FormatContext :=
  mkFormatContext (section_depth self + 1) (width self) (bullet self) (colwidths self).

Definition with_width (self : FormatContext) (w : option Z) : FormatContext :=
  mkFormatContext (section_depth self) w (bullet self) (colwidths self).

Definition with_bullet (self : FormatContext) (b : str) : FormatContext :=
  mkFormatContext (section_depth self) (width self) (Some b) (colwidths self).

Definition with_colwidths (self : FormatContext) (c : list Z) : FormatContext :=
  mkFormatContext (section_depth self) (width self) (bullet self) (Some c).

(** ** Inline items and words *)

(** What a formatter yields: a plain [str], or an [inline_markup] object
    wrapping the text of a markup span. *)
Inductive item :=
| Str (s : str)
| inline_markup (text : str).

Record word_info := mk_word_info {
  text : str;
  in_markup : bool;
  start_space : bool;
  end_space : bool;
  start_punct : bool;
  end_punct : bool
}.

(** [l[0] = f(l[0])] and [l[-1] = f(l[-1])] on a non-empty list. *)
Definition replace_first {A} (f : A -> A) (l : list A) : list A :=
  match l with
  | [] => []
  | x :: rest => f x :: rest
  end.

Definition replace_last {A} (f : A -> A) (l : list A) : list A :=
  match List.rev l with
  | [] => []
  | x :: rest => List.rev rest ++ [f x]
  end.

Definition set_start_space (w : word_info) :=
  mk_word_info (text w) (in_markup w) true (end_space w) (start_punct w) (end_punct w).
Definition set_end_space (w : word_info) :=
  mk_word_info (text w) (in_markup w) (start_space w) true (start_punct w) (end_punct w).
Definition set_start_punct (w : word_info) :=
  mk_word_info (text w) (in_markup w) (start_space w) (end_space w) true (end_punct w).
Definition set_end_punct (w : word_info) :=
  mk_word_info (text w) (in_markup w) (start_space w) (end_space w) (start_punct w) true.

Definition when {A} (b : bool) (f : A -> A) (x : A) : A := if b then f x else x.

Definition split_words (it : item) : list word_info :=
  match it with
  | Str s =>
      match s with
      | [] => [mk_word_info [] false false false false true]
      | first :: _ =>
          let last := List.last s first in
          let new_words :=
            List.map (fun t => mk_word_info t false false false false false) (Py.split s) in
          let new_words :=
            if Py.truthy new_words then new_words
            else [mk_word_info [] false true true true true] in
          let new_words :=
            when (Py.mem first space_chars) (replace_first set_start_space) new_words in
          let new_words :=
            when (Py.mem last space_chars) (replace_last set_end_space) new_words in
          let new_words :=
            when (Py.mem first post_markup_break_chars) (replace_first set_start_punct) new_words in
          when (Py.mem last pre_markup_break_chars) (replace_last set_end_punct) new_words
      end
  | inline_markup t =>
      List.map (fun t => mk_word_info t true false false false false) (Py.split t)
  end.

(** The word list starts from this sentinel. *)
Definition sentinel : word_info := mk_word_info [] false true true true true.

Definition escaped_space : str := lit "\ ".

(** One iteration of the merging loop of [wrap_text]. *)
Definition merge_word (words : list word_info) (word : word_info) : list word_info :=
  let last := List.last words sentinel in
  if negb (in_markup last) && in_markup word && negb (end_space last) then
    let join := if end_punct last then [] else escaped_space in
    List.removelast words
      ++ [mk_word_info (text last ++ join ++ text word) true false false false false]
  else if in_markup last && negb (in_markup word) && negb (start_space word) then
    let join := if start_punct word then [] else escaped_space in
    List.removelast words
      ++ [mk_word_info (text last ++ join ++ text word) false false
                       (end_space word) (start_punct word) (end_punct word)]
  else words ++ [word].

Definition merge_words (raw_words : list word_info) : list word_info :=
  List.fold_left merge_word raw_words [sentinel].

(** The tokens the packing loop receives: merged words with a non-empty text. *)
Definition tokens (items : list item) : list str :=
  List.filter Py.truthy
    (List.map text (merge_words (chain (List.map split_words items)))).

Definition space : str := lit " ".

(** One iteration of the packing loop: state [(buf, n)] and the lines
    yielded so far. *)
Definition pack_word (width : Z) (st : list str * Z * list str) (w : str)
  : list str * Z * list str :=
  let '(buf, n, out) := st in
  let n2 := n + (if Py.truthy buf then 1 else 0) + Py.len w in
  if Py.truthy buf && (n2 >? width)
  then ([w], Py.len w, out ++ [Py.join space buf])
  else (buf ++ [w], n2, out).

Definition pack (width : Z) (words : list str) : list str :=
  let '(buf, _, out) := List.fold_left (pack_word width) words ([], 0, []) in
  if Py.truthy buf then out ++ [Py.join space buf] else out.

Definition wrap_text (width : option Z) (items : list item) : list str :=
  let words := tokens items in
  match width with
  | None => [Py.join space words]
  | Some w => pack w words
  end.

Definition with_spaces (n : Z) (lines : list str) : list str :=
  let s := Py.times 32%N n in
  List.map (fun l => if Py.truthy l then s ++ l else l) lines.

(** ** Document model *)

(** The [directive] object stored by [generic_directive.run]. *)
Record directive_obj := mk_directive {
  d_name : str;
  d_arguments : list str;
  d_options : list (str * option str);
  d_content : list str
}.

(** The attributes the formatter reads.  An optional key of the
    attribute dictionary is an [option]; [names] and [classes] are list
    attributes every element carries; [target] says whether the key
    ["target"] is present (set by [preproc]); [anonymous] is the truth
    value of [attributes.get("anonymous")]. *)
Record attributes := mk_attributes {
  refuri : option str;
  target : bool;
  anonymous : bool;
  directive : option directive_obj;
  colwidth : option Z;
  names : list str;
  uri : option str;
  classes : list str;
  rawsource : str
}.

(** A node is a [Text] leaf or an element of the class named [tag]
    (the name of a docutils node class) with attributes and children. *)
Inductive node :=
| Text (s : str)
| Element (tag : string) (a : attributes) (children : list node).

Definition type_name (n : node) : string :=
  match n with
  | Text _ => "Text"%string
  | Element tag _ _ => tag
  end.

Definition isinstance (n : node) (cls : string) : bool :=
  String.eqb (type_name n) cls.

Definition node_children (n : node) : list node :=
  match n with
  | Text _ => []
  | Element _ _ cs => cs
  end.

Definition node_attributes (n : node) : option attributes :=
  match n with
  | Text _ => None
  | Element _ a _ => Some a
  end.

Fixpoint astext (n : node) : str :=
  match n with
  | Text s => s
  | Element _ _ cs => Py.join (lit (String "010" (String "010" EmptyString))) (List.map astext cs)
  end.

(** [preproc]: drop [system_message] children everywhere, then mark
    each [reference] directly followed by a [target] sibling. *)
Definition set_target (n : node) : node :=
  match n with
  | Text s => Text s
  | Element tag a cs =>
      Element tag (mk_attributes (refuri a) true (anonymous a) (directive a) (colwidth a)
                                 (names a) (uri a) (classes a) (rawsource a)) cs
  end.

Fixpoint mark_targets (cs : list node) : list node :=
  match cs with
  | a :: ((b :: _) as rest) =>
      (if isinstance a "reference" && isinstance b "target" then set_target a else a)
        :: mark_targets rest
  | _ => cs
  end.

Fixpoint preproc (n : node) : node :=
  match n with
  | Text s => Text s
  | Element tag a cs =>
      Element tag a
        (mark_targets
           (List.flat_map
              (fun c => if isinstance c "system_message" then [] else [preproc c])
              cs))
  end.

Fixpoint node_eq (d1 d2 : node) : bool :=
  String.eqb (type_name d1) (type_name d2)
  && Nat.eqb (List.length (node_children d1)) (List.length (node_children d2))
  && match d1 with
     | Text _ => true
     | Element _ _ cs1 =>
         List.forallb (fun '((eq_c1, c2) : (node -> bool) * node) => eq_c1 c2)
                      (List.combine (List.map node_eq cs1) (node_children d2))
     end.

(** ** Formatting rules *)

(** A child waiting to be formatted: [fun ctx => fmt(c, ctx)]. *)
Definition renderer := FormatContext -> option (list item).

Definition fmt_children (kids : list renderer) (ctx : FormatContext)
  : option (list (list item)) :=
  sequence (List.map (fun k => k ctx) kids).

(** Where the code needs a [str] an [inline_markup] object raises. *)
Definition as_str (i : item) : option str :=
  match i with
  | Str s => Some s
  | inline_markup _ => None
  end.

Definition strs (items : list item) : option (list str) :=
  sequence (List.map as_str items).

Definition Strs (lines : list str) : list item := List.map Str lines.

Definition blank : item := Str [].

Definition newline : char := 10%N.

(** [re.match("^[-_.:+a-zA-Z]+$", title)]; [$] also matches before a
    final newline. *)
Definition name_char (c : char) : bool :=
  Py.mem c (lit "-_.:+") || ((97 <=? c) && (c <=? 122))%N || ((65 <=? c) && (c <=? 90))%N.

Definition all_name_chars (s : str) : bool := Py.truthy s && List.forallb name_char s.

Definition re_match_name (title : str) : bool :=
  all_name_chars title
  || match List.rev title with
     | c :: body => N.eqb c newline && all_name_chars (List.rev body)
     | [] => false
     end.

(** [re.search("[-_.:+][-_.:+]", title)]. *)
Fixpoint re_search_adjacent (title : str) : bool :=
  match title with
  | c1 :: ((c2 :: _) as rest) =>
      (Py.mem c1 (lit "-_.:+") && Py.mem c2 (lit "-_.:+")) || re_search_adjacent rest
  | _ => false
  end.

Definition border (fill : char) (ws : list Z) : str :=
  lit "+" ++ Py.join (lit "+") (List.map (Py.times fill) ws) ++ lit "+".

Definition esc : str := [27%N].

Definition placeholder (name : string) : str :=
  esc ++ lit "[35m" ++ Py.upper (lit name) ++ esc ++ lit "[m".

Module Formatters.

Section Rules.

(** The node being formatted: its parent's class, its attributes,
    its children, the children as renderers, and the children of
    each child as renderers. *)
Variable parent : option string.
Variable a : attributes.
Variable children : list node.
Variable kids : list renderer.
Variable grandkids : list (list renderer).
Variable ctx : FormatContext.

Definition delimited (l r : str) : option (list item) :=
  parts <- fmt_children kids ctx ;;
  ss <- strs (chain parts) ;;
  Some [inline_markup (l ++ List.concat ss ++ r)].

Definition substitution_reference := delimited (lit "|") (lit "|").
Definition emphasis := delimited (lit "*") (lit "*").
Definition strong := delimited (lit "**") (lit "**").
Definition literal := delimited (lit "``") (lit "``").
Definition title_reference := delimited (lit "`") (lit "`").

Definition bullet_list : option (list item) :=
  parts <- fmt_children kids (with_bullet ctx (lit "- ")) ;;
  Some (chain_intersperse blank parts).

Definition enumerated_list : option (list item) :=
  parts <- fmt_children kids (with_bullet ctx (lit "#.")) ;;
  Some (chain_intersperse blank parts).

Definition list_item : option (list item) :=
  bul <- bullet ctx ;;
  let w := Py.len bul + 1 in
  let b := bul ++ lit " " in
  let s := Py.times 32%N w in
  parts <- fmt_children kids (indent ctx w) ;;
  lines <- strs (chain_intersperse blank parts) ;;
  Some (List.map
          (fun '((first, c) : bool * str) =>
             Str ((if Py.truthy c then (if first then b else s) else []) ++ c))
          (enum_first lines)).

Definition term : option (list item) :=
  parts <- fmt_children kids ctx ;;
  Some [Str (Py.join space (wrap_text (Some 0) (chain parts)))].

Definition definition : option (list item) :=
  parts <- fmt_children kids ctx ;;
  Some (chain_intersperse blank parts).

Definition definition_list_item : option (list item) :=
  parts <- sequence
             (List.map
                (fun '((c, k) : node * renderer) =>
                   if isinstance c "term" then k ctx
                   else if isinstance c "definition" then
                     r <- k (indent ctx 3) ;;
                     lines <- strs r ;;
                     Some (Strs (with_spaces 3 lines))
                   else Some [])
                (List.combine children kids)) ;;
  Some (chain parts).

Definition definition_list : option (list item) :=
  parts <- fmt_children kids ctx ;;
  Some (chain_intersperse blank parts).

Definition paragraph : option (list item) :=
  parts <- fmt_children kids ctx ;;
  Some (Strs (wrap_text (width ctx) (chain parts))).

Definition title : option (list item) :=
  parts <- fmt_children kids ctx ;;
  let text := Py.join space (wrap_text (Some 0) (chain parts)) in
  c <- Py.getitem section_chars (section_depth ctx - 1) ;;
  Some [Str text; Str (Py.times c (Py.len text))].

Definition indented_body : option (list item) :=
  parts <- fmt_children kids (indent ctx 3) ;;
  lines <- strs (chain_intersperse blank parts) ;;
  Some (Strs (with_spaces 3 lines)).

Definition block_quote := indented_body.

Definition directive : option (list item) :=
  d <- directive a ;;
  Some (Strs
          ([Py.join space ((lit ".. " ++ d_name d ++ lit "::") :: d_arguments d)]
           ++ List.map
                (fun '((k, v) : str * option str) =>
                   match v with
                   | None => lit "   :" ++ k ++ lit ":"
                   | Some v => lit "   :" ++ k ++ lit ": " ++ v
                   end)
                (d_options d)
           ++ prepend_if_any [] (with_spaces 3 (d_content d)))).

Definition section : option (list item) :=
  parts <- fmt_children kids (in_section ctx) ;;
  Some (chain_intersperse blank parts).

Definition document : option (list item) :=
  parts <- fmt_children kids ctx ;;
  Some (chain_intersperse blank parts).

(** [" " + (line or "").ljust(w - 2) + " "]. *)
Definition cell (line : option item) (w : Z) : option str :=
  l <- match line with
       | None => Some []
       | Some i => as_str i
       end ;;
  Some (lit " " ++ Py.ljust l (w - 2) ++ lit " ").

Definition row_line (ws : list Z) (line_group : list (option item)) : option item :=
  cells <- sequence (List.map (fun '((line, w) : option item * Z) => cell line w)
                              (List.combine line_group ws)) ;;
  Some (Str (lit "|" ++ Py.join (lit "|") cells ++ lit "|")).

Definition row : option (list item) :=
  ws <- colwidths ctx ;;
  all_lines <- sequence
                 (List.map
                    (fun '((entry, w) : list renderer * Z) =>
                       parts <- fmt_children entry (with_width ctx (Some (w - 2))) ;;
                       Some (chain_intersperse blank parts))
                    (List.combine grandkids ws)) ;;
  sequence (List.map (row_line ws) (zip_longest all_lines)).

Definition tbody : option (list item) :=
  ws <- colwidths ctx ;;
  let sep := border 45%N ws in
  parts <- fmt_children kids ctx ;;
  Some (chain_intersperse (Str sep) parts).

Definition thead := tbody.

Definition tgroup : option (list item) :=
  ws <- sequence
          (List.map (fun c => att <- node_attributes c ;; colwidth att)
                    (List.filter (fun c => isinstance c "colspec") children)) ;;
  let ctx := with_colwidths ctx ws in
  let sep := border 45%N ws in
  parts <- sequence
             (List.map
                (fun '((c, k) : node * renderer) =>
                   if isinstance c "colspec" then Some []
                   else
                     head <- (if isinstance c "thead"
                              then r <- k ctx ;; Some (r ++ [Str (border 61%N ws)])
                              else Some []) ;;
                     body <- (if isinstance c "tbody"
                              then r <- k ctx ;; Some (r ++ [Str sep])
                              else Some []) ;;
                     Some (head ++ body))
                (List.combine children kids)) ;;
  Some (Str sep :: chain parts).

Definition table : option (list item) :=
  parts <- fmt_children kids ctx ;;
  Some (chain_intersperse blank parts).

Definition Text (astext : str) : option (list item) := Some [Str astext].

Definition reference : option (list item) :=
  parts <- fmt_children kids ctx ;;
  let title := Py.join space (wrap_text (Some 0) (chain parts)) in
  let anonymous :=
    match refuri a with
    | Some _ => negb (target a)
    | None => anonymous a
    end in
  let suffix := if anonymous then lit "__" else lit "_" in
  match refuri a with
  | Some uri =>
      if Py.str_eqb uri title || Py.str_eqb uri (lit "mailto:" ++ title)
      then Some [inline_markup title]
      else Some [inline_markup (lit "`" ++ title ++ lit " <" ++ uri ++ lit ">`" ++ suffix)]
  | None =>
      let is_single_word :=
        (re_match_name title && negb (re_search_adjacent title))
        || match children with
           | [c] => isinstance c "substitution_reference"
           | _ => false
           end in
      let title := if is_single_word then title else lit "`" ++ title ++ lit "`" in
      Some [inline_markup (title ++ suffix)]
  end.

Definition role : option (list item) := Some [inline_markup (rawsource a)].

Definition inline : option (list item) :=
  parts <- fmt_children kids ctx ;;
  Some (chain parts).

Definition target : option (list item) :=
  let body := match refuri a with Some u => lit " " ++ u | None => [] end in
  let structural :=
    match parent with
    | Some cls => String.eqb cls "document" || String.eqb cls "section"
    | None => false
    end in
  if structural then
    name <- List.hd_error (names a) ;;
    Some [Str (lit ".. _" ++ name ++ lit ":" ++ body)]
  else Some [].

Definition comment : option (list item) :=
  parts <- fmt_children kids ctx ;;
  ss <- strs (chain parts) ;;
  let text := Py.join [newline] ss in
  Some (Str (lit "..") :: Strs (with_spaces 3 (Py.split_on newline text))).

Definition admonition (kind : str) : option (list item) :=
  body <- indented_body ;;
  Some (Str (lit ".. " ++ kind ++ lit "::") :: blank :: body).

Definition note := admonition (lit "note").
Definition warning := admonition (lit "warning").
Definition hint := admonition (lit "hint").

Definition image : option (list item) :=
  u <- uri a ;;
  Some [Str (lit ".. image:: " ++ u)].

Definition literal_block : option (list item) :=
  let lang := List.filter (fun c => negb (Py.str_eqb c (lit "code"))) (classes a) in
  let head := lit ".. code::" ++ match lang with l0 :: _ => lit " " ++ l0 | [] => [] end in
  parts <- fmt_children kids ctx ;;
  ss <- strs (chain parts) ;;
  let text := List.concat ss in
  Some (Str head :: blank :: Strs (with_spaces 3 (Py.split_on newline text))).

End Rules.

End Formatters.

(** ** Dispatcher *)

(** The rules [getattr(Formatters, name, ...)] can find. *)
Inductive rule :=
| r_substitution_reference | r_emphasis | r_strong | r_literal | r_title_reference
| r_bullet_list | r_enumerated_list | r_list_item | r_term | r_definition
| r_definition_list_item | r_definition_list | r_paragraph | r_title
| r_block_quote | r_directive | r_section | r_document | r_row | r_tbody
| r_thead | r_tgroup | r_table | r_Text | r_reference | r_role | r_inline
| r_target | r_comment | r_note | r_warning | r_hint | r_image | r_literal_block.

Definition rules : list (string * rule) :=
  [ ("substitution_reference", r_substitution_reference); ("emphasis", r_emphasis);
    ("strong", r_strong); ("literal", r_literal); ("title_reference", r_title_reference);
    ("bullet_list", r_bullet_list); ("enumerated_list", r_enumerated_list);
    ("list_item", r_list_item); ("term", r_term); ("definition", r_definition);
    ("definition_list_item", r_definition_list_item);
    ("definition_list", r_definition_list); ("paragraph", r_paragraph);
    ("title", r_title); ("block_quote", r_block_quote); ("directive", r_directive);
    ("section", r_section); ("document", r_document); ("row", r_row);
    ("tbody", r_tbody); ("thead", r_thead); ("tgroup", r_tgroup); ("table", r_table);
    ("Text", r_Text); ("reference", r_reference); ("role", r_role); ("inline", r_inline);
    ("target", r_target); ("comment", r_comment); ("note", r_note);
    ("warning", r_warning); ("hint", r_hint); ("image", r_image);
    ("literal_block", r_literal_block) ]%string.

Fixpoint lookup {A} (name : string) (l : list (string * A)) : option A :=
  match l with
  | [] => None
  | (k, v) :: rest => if String.eqb k name then Some v else lookup name rest
  end.

Definition run_rule (r : rule) (parent : option string) (a : attributes)
    (children : list node) (kids : list renderer) (grandkids : list (list renderer))
    (text_of_self : str) (ctx : FormatContext)
  : option (list item) :=
  match r with
  | r_substitution_reference => Formatters.substitution_reference kids ctx
  | r_emphasis => Formatters.emphasis kids ctx
  | r_strong => Formatters.strong kids ctx
  | r_literal => Formatters.literal kids ctx
  | r_title_reference => Formatters.title_reference kids ctx
  | r_bullet_list => Formatters.bullet_list kids ctx
  | r_enumerated_list => Formatters.enumerated_list kids ctx
  | r_list_item => Formatters.list_item kids ctx
  | r_term => Formatters.term kids ctx
  | r_definition => Formatters.definition kids ctx
  | r_definition_list_item => Formatters.definition_list_item children kids ctx
  | r_definition_list => Formatters.definition_list kids ctx
  | r_paragraph => Formatters.paragraph kids ctx
  | r_title => Formatters.title kids ctx
  | r_block_quote => Formatters.block_quote kids ctx
  | r_directive => Formatters.directive a
  | r_section => Formatters.section kids ctx
  | r_document => Formatters.document kids ctx
  | r_row => Formatters.row grandkids ctx
  | r_tbody => Formatters.tbody kids ctx
  | r_thead => Formatters.thead kids ctx
  | r_tgroup => Formatters.tgroup children kids ctx
  | r_table => Formatters.table kids ctx
  | r_Text => Formatters.Text text_of_self
  | r_reference => Formatters.reference a children kids ctx
  | r_role => Formatters.role a
  | r_inline => Formatters.inline kids ctx
  | r_target => Formatters.target parent a
  | r_comment => Formatters.comment kids ctx
  | r_note => Formatters.note kids ctx
  | r_warning => Formatters.warning kids ctx
  | r_hint => Formatters.hint kids ctx
  | r_image => Formatters.image a
  | r_literal_block => Formatters.literal_block a kids ctx
  end.

(** [fmt(node, ctx)], drained.  [parent] is the class of [node.parent].
    The lookup in [rules] stands for [getattr(Formatters, name, ...)] on
    type names that are ASCII class names and no attribute [Formatters]
    inherits from [object] or [type]. *)
Fixpoint fmt (parent : option string) (n : node) (ctx : FormatContext) {struct n}
  : option (list item) :=
  match n with
  | Text s => Formatters.Text s
  | Element tag a children =>
      let kids : list renderer :=
        List.map (fun c ctx' => fmt (Some tag) c ctx') children in
      let grandkids : list (list renderer) :=
        List.map
          (fun c =>
             match c with
             | Text _ => []
             | Element ctag _ gcs => List.map (fun g ctx' => fmt (Some ctag) g ctx') gcs
             end)
          children in
      match lookup tag rules with
      | Some r => run_rule r parent a children kids grandkids (astext n) ctx
      | None => Some [Str (placeholder tag)]
      end
  end.

Definition format_node (width : option Z) (n : node) : option str :=
  items <- fmt None n (mkFormatContext 0 width None None) ;;
  lines <- strs items ;;
  Some (Py.join [newline] lines).

Definition no_attributes : attributes :=
  mk_attributes None false false None None [] None [] [].

Definition el (tag : string) (cs : list node) : node := Element tag no_attributes cs.

Definition show (s : str) : string :=
  string_of_list_ascii (List.map ascii_of_N s).

(** ** Consistency oracle *)

Inductive outcome :=
| Passed
| AssertionError
| Raised.

Section Oracle.

(** The docutils parser, an external collaborator: text to tree. *)
Variable parse : str -> node.

Definition parse_string (s : str) : node := preproc (parse s).

Definition test_widths : list (option Z) :=
  [Some 1; Some 2; Some 3; Some 5; Some 8; Some 13; Some 34; Some 55;
   Some 89; Some 144; Some 72; None].

(** One round of the loop of [run_test]. *)
Definition check_width (doc : node) (w : option Z) : outcome :=
  match format_node w doc with
  | None => Raised
  | Some output =>
      let doc2 := parse_string output in
      match format_node w doc2 with
      | None => Raised
      | Some output2 =>
          if node_eq doc doc2 && Py.str_eqb output output2
          then Passed else AssertionError
      end
  end.

Definition run_test (doc : node) : outcome :=
  List.fold_left
    (fun (o : outcome) (w : option Z) =>
       match o with
       | Passed => check_width doc w
       | _ => o
       end)
    test_widths Passed.

End Oracle.

(** ** Vocabulary of the statements *)

Section Packing.

Variable w : Z.

(** The lines of the packing loop as groups of tokens: [buf] is the
    line being filled. *)
Fixpoint groups_from (buf : list str) (words : list str) : list (list str) :=
  match words with
  | [] => if Py.truthy buf then [buf] else []
  | t :: rest =>
      if Py.truthy buf && (Py.len (Py.join space buf) + 1 + Py.len t >? w)
      then buf :: groups_from [t] rest
      else groups_from (buf ++ [t]) rest
  end.

(** A line respects the width, or is one token that alone exceeds it. *)
Definition fits (g : list str) : Prop :=
  Py.len (Py.join space g) <= w \/ exists t, g = [t] /\ w < Py.len t.

(** Each line was closed only because the next token did not fit. *)
Inductive greedy : list (list str) -> Prop :=
| greedy_nil : greedy []
| greedy_one g : greedy [g]
| greedy_cons g1 t g2 rest :
    w < Py.len (Py.join space g1) + 1 + Py.len t ->
    greedy ((t :: g2) :: rest) ->
    greedy (g1 :: (t :: g2) :: rest).

End Packing.

(** [needle] occurs in [hay]. *)
Definition infix (needle hay : str) : Prop :=
  exists pre post, hay = pre ++ needle ++ post.

(** A non-empty line made of whitespace only. *)
Definition whitespace_only (l : str) : Prop :=
  l <> [] /\ List.Forall (fun c => Py.isspace c = true) l.

Definition rule_names : list string := List.map fst rules.

(** The children of an element of class [tag], each formatted in [ctx]. *)
Definition render_children (tag : string) (children : list node) (ctx : FormatContext)
  : option (list (list item)) :=
  sequence (List.map (fun c => fmt (Some tag) c ctx) children).

Definition one_line (s : str) : Prop := ~ List.In newline s.

Definition ctx_at (depth : Z) (w : option Z) : FormatContext :=
  mkFormatContext depth w None None.

Definition with_refuri (u : str) (followed_by_target : bool) : attributes :=
  mk_attributes (Some u) followed_by_target false None None [] None [] [].

(** The explicit form of a hyperlink reference. *)
Definition explicit_reference (title uri suffix : str) : str :=
  lit "`" ++ title ++ lit " <" ++ uri ++ lit ">`" ++ suffix.

(** One word: non-empty, no whitespace. *)
Definition single_word (t : str) : Prop :=
  t <> [] /\ List.Forall (fun c => Py.isspace c = false) t.

Definition markup_word (m : str) : word_info :=
  mk_word_info m true false false false false.

(** *** Tables *)















Definition with_names (ns : list str) : attributes :=
  mk_attributes None false false None None ns None [] [].


(** A list item that opens with a hyperlink target:
    [- .. _label:], a blank line, then the paragraph [text]. *)
Definition labelled_item : node :=
  el "list_item"
     [Element "target" (with_names [lit "label"]) [];
      el "paragraph" [Text (lit "text")]].

(** A document whose sections nest seven deep. *)
Definition seven_levels : node :=
  el "document" [el "section" [el "section" [el "section" [el "section"
    [el "section" [el "section" [el "section"
       [el "title" [Text (lit "Deep")]]]]]]]]].

(** *** Further vocabulary *)

(** Remove the [n] leading characters an indentation step put in front
    of a non-empty line. *)
Definition unindent (n : Z) (l : str) : str :=
  if Py.truthy l then List.skipn (Z.to_nat n) l else l.

(** The values of one argument among the tuples of [zip_longest]. *)
Definition column {A} (i : nat) (tuples : list (list (option A))) : list A :=
  List.flat_map
    (fun tup => match List.nth_error tup i with
                | Some (Some x) => [x]
                | _ => []
                end)
    tuples.

(** The text a fragment wraps. *)
Definition fragment_text (it : item) : str :=
  match it with
  | Str s => s
  | inline_markup s => s
  end.

(** The inline rules that wrap their children in a delimiter pair. *)
Definition delimiters : list (string * (str * str)) :=
  [ ("substitution_reference", (lit "|", lit "|"));
    ("emphasis", (lit "*", lit "*"));
    ("strong", (lit "**", lit "**"));
    ("literal", (lit "``", lit "``"));
    ("title_reference", (lit "`", lit "`")) ]%string.

Definition is_letter (c : char) : bool :=
  (((97 <=? c) && (c <=? 122)) || ((65 <=? c) && (c <=? 90)))%N.

Definition with_anonymous (b : bool) : attributes :=
  mk_attributes None false b None None [] None [] [].

Definition with_directive (d : directive_obj) : attributes :=
  mk_attributes None false false (Some d) None [] None [] [].

(** No [system_message] node below the root. *)
Fixpoint clean (n : node) : bool :=
  match n with
  | Text _ => true
  | Element _ _ cs =>
      List.forallb (fun c => negb (isinstance c "system_message") && clean c) cs
  end.

(** *** Type names the dispatcher misses *)

(** The type name is written in ASCII, as the names of the docutils node
    classes are; on such names [Py.upper] is [str.upper]. *)
Definition ascii_name (tag : string) : bool :=
  List.forallb (fun c => (c <? 128)%N) (lit tag).

(** Names [getattr] finds on [Formatters] although they name no rule:
    the attributes a class inherits from [object] and [type] all start
    with an underscore, except [mro].  For these [getattr] does not fall
    back on the placeholder. *)
Definition inherited_name (tag : string) : bool :=
  String.eqb tag "mro"
  || match tag with
     | String c _ => Ascii.eqb c "_"
     | EmptyString => false
     end.

(** *** The lines of a directive *)

Definition option_line (kv : str * option str) : str :=
  match snd kv with
  | None => lit "   :" ++ fst kv ++ lit ":"
  | Some v => lit "   :" ++ fst kv ++ lit ": " ++ v
  end.

Definition directive_text (d : directive_obj) : list str :=
  Py.join space ((lit ".. " ++ d_name d ++ lit "::") :: d_arguments d)
    :: List.map option_line (d_options d)
    ++ match d_content d with
       | [] => []
       | _ :: _ =>
           [] :: List.map (fun l => match l with
                                    | [] => []
                                    | _ :: _ => lit "   " ++ l
                                    end)
                          (d_content d)
       end.

(** * Properties *)

(** ** Python string helpers *)

Lemma len_app {A} (a b : list A) : Py.len (a ++ b) = Py.len a + Py.len b.
Proof. unfold Py.len. rewrite List.length_app. lia. Qed.

Lemma len_nonneg {A} (a : list A) : 0 <= Py.len a.
Proof. unfold Py.len. lia. Qed.

Lemma truthy_false {A} (l : list A) : Py.truthy l = false <-> l = [].
Proof. destruct l; simpl; split; congruence. Qed.

Lemma truthy_true {A} (l : list A) : Py.truthy l = true <-> l <> [].
Proof. destruct l; simpl; split; congruence. Qed.

Lemma join_cons2 (sep x y : str) (l : list str) :
  Py.join sep (x :: y :: l) = x ++ sep ++ Py.join sep (y :: l).
Proof. reflexivity. Qed.

Lemma join_snoc (sep : str) (l : list str) (x : str) :
  l <> [] -> Py.join sep (l ++ [x]) = Py.join sep l ++ sep ++ x.
Proof.
  induction l as [|y l IH]; [congruence|]. intros _.
  destruct l as [|z l].
  - reflexivity.
  - cbn [List.app]. rewrite !join_cons2.
    cbn [List.app] in IH. rewrite IH by discriminate.
    now rewrite <- !List.app_assoc.
Qed.

Lemma len_times (c : char) (n : Z) : Py.len (Py.times c n) = Z.max 0 n.
Proof. unfold Py.len, Py.times. rewrite List.repeat_length. lia. Qed.

Lemma len_space : Py.len space = 1.
Proof. reflexivity. Qed.

(** ** The packing loop *)

Lemma pack_fold (w : Z) (words : list str) : forall buf out,
  (let '(buf', _, out') :=
     List.fold_left (pack_word w) words (buf, Py.len (Py.join space buf), out) in
   if Py.truthy buf' then out' ++ [Py.join space buf'] else out')
  = out ++ List.map (Py.join space) (groups_from w buf words).
Proof.
  induction words as [|t rest IH]; intros buf out.
  - simpl. destruct (Py.truthy buf); simpl; now rewrite ?List.app_nil_r.
  - cbn [List.fold_left groups_from pack_word].
    destruct buf as [|b0 buf].
    + cbn [Py.truthy andb Py.join List.app]. 
      replace (Py.len (@nil char) + 0 + Py.len t) with (Py.len (Py.join space [t]))
        by (cbn; lia).
      apply IH.
    + cbn [Py.truthy andb].
      destruct (_ >? w) eqn:E.
      * etransitivity; [exact (IH [t] (out ++ [Py.join space (b0 :: buf)]))|].
        cbn [List.map]. now rewrite <- List.app_assoc.
      * replace (Py.len (Py.join space (b0 :: buf)) + 1 + Py.len t)
          with (Py.len (Py.join space ((b0 :: buf) ++ [t]))).
        -- apply IH.
        -- rewrite join_snoc by discriminate. rewrite !len_app, len_space. lia.
Qed.

Section PackingFacts.

Variable w : Z.

Lemma groups_from_concat (words : list str) : forall buf,
  List.concat (groups_from w buf words) = buf ++ words.
Proof.
  induction words as [|t rest IH]; intros buf; cbn [groups_from].
  - destruct buf; simpl; now rewrite ?List.app_nil_r.
  - destruct (_ && _).
    + cbn [List.concat]. rewrite IH. reflexivity.
    + rewrite IH, <- List.app_assoc. reflexivity.
Qed.

Lemma groups_from_nonempty (words : list str) : forall buf,
  List.Forall (fun g => g <> []) (groups_from w buf words).
Proof.
  induction words as [|t rest IH]; intros buf; cbn [groups_from].
  - destruct buf; simpl; constructor; [discriminate | constructor].
  - destruct (_ && _) eqn:E.
    + constructor; [|apply IH].
      apply andb_prop in E. now apply truthy_true.
    + apply IH.
Qed.

Lemma fits_single (t : str) : fits w [t].
Proof.
  unfold fits. cbn [Py.join].
  destruct (Z_le_gt_dec (Py.len t) w); [now left | right; exists t; split; [reflexivity | lia]].
Qed.

Lemma groups_from_fits (words : list str) : forall buf,
  buf = [] \/ fits w buf ->
  List.Forall (fits w) (groups_from w buf words).
Proof.
  induction words as [|t rest IH]; intros buf Hbuf; cbn [groups_from].
  - destruct buf; simpl; [constructor|].
    destruct Hbuf as [?|?]; [discriminate|]. constructor; [assumption | constructor].
  - destruct buf as [|b0 buf].
    + cbn [Py.truthy andb List.app]. apply IH. right. apply fits_single.
    + cbn [Py.truthy andb].
      destruct Hbuf as [?|Hbuf]; [discriminate|].
      destruct (_ >? w) eqn:E.
      * constructor; [exact Hbuf|]. apply IH. right. apply fits_single.
      * apply IH. right. left.
        rewrite join_snoc by discriminate. rewrite !len_app, len_space. lia.
Qed.

Lemma groups_from_greedy (words : list str) : forall buf,
  buf <> [] ->
  exists g rest,
    groups_from w buf words = (buf ++ g) :: rest /\ greedy w ((buf ++ g) :: rest).
Proof.
  induction words as [|t rest IH]; intros buf Hbuf; cbn [groups_from].
  - exists [], []. rewrite List.app_nil_r.
    destruct buf; [congruence|]. split; [reflexivity | constructor].
  - destruct buf as [|b0 buf]; [congruence|].
    cbn [Py.truthy andb].
    destruct (_ >? w) eqn:E.
    + destruct (IH [t]) as (g & rest' & Heq & Hg); [discriminate|].
      exists [], (([t] ++ g) :: rest'). rewrite List.app_nil_r, Heq.
      split; [reflexivity|]. cbn [List.app] in *. constructor; [lia | exact Hg].
    + destruct (IH ((b0 :: buf) ++ [t])) as (g & rest' & Heq & Hg); [now destruct buf|].
      exists (t :: g), rest'. rewrite <- List.app_assoc in Heq, Hg. now split.
Qed.

Lemma pack_groups (words : list str) :
  pack w words = List.map (Py.join space) (groups_from w [] words).
Proof. unfold pack. exact (pack_fold w words [] []). Qed.

Lemma groups_greedy (words : list str) : greedy w (groups_from w [] words).
Proof.
  destruct words as [|t rest]; [constructor|].
  cbn [groups_from Py.truthy andb List.app].
  destruct (groups_from_greedy rest [t]) as (g & r & Heq & Hg); [discriminate|].
  now rewrite Heq.
Qed.

End PackingFacts.

(** C2.  Whatever the width and the fragments, the lines of the word
    wrapper are the tokens, in order and unsplit, cut into non-empty
    groups joined by single spaces; each line is at most [w] long unless
    it is one token that alone is longer than [w]; and a line is closed
    only when the next token, with its separating space, would not fit
    (so a token joins the current line exactly when it fits). *)
Theorem wrap_text_width_bound (w : Z) (items : list item) :
  exists groups : list (list str),
    wrap_text (Some w) items = List.map (Py.join space) groups
    /\ List.concat groups = tokens items
    /\ List.Forall (fun g => g <> []) groups
    /\ List.Forall (fits w) groups
    /\ greedy w groups
    /\ List.Forall
         (fun line => Py.len line <= w \/ (List.In line (tokens items) /\ w < Py.len line))
         (wrap_text (Some w) items).
Proof.
  exists (groups_from w [] (tokens items)).
  assert (Hc := groups_from_concat w (tokens items) []).
  assert (Hf := groups_from_fits w (tokens items) [] (or_introl eq_refl)).
  cbn [wrap_text]. rewrite pack_groups.
  repeat split; auto using groups_from_nonempty, groups_greedy.
  apply List.Forall_forall. intros line Hin.
  apply List.in_map_iff in Hin. destruct Hin as (g & <- & Hg).
  rewrite List.Forall_forall in Hf. destruct (Hf g Hg) as [Hle | (t & -> & Hgt)].
  - now left.
  - right. split; [|exact Hgt]. cbn [Py.join].
    simpl in Hc. rewrite <- Hc. apply List.in_concat. exists [t]. split; [exact Hg | now left].
Qed.

(** The paragraph "This is **bold** text." at widths 72 and 5. *)
Example wrap_bold_72 :
  wrap_text (Some 72)
    [Str (lit "This is "); inline_markup (lit "**bold**"); Str (lit " text.")]
  = [lit "This is **bold** text."].
Proof. reflexivity. Qed.

Example wrap_bold_5 :
  wrap_text (Some 5)
    [Str (lit "This is "); inline_markup (lit "**bold**"); Str (lit " text.")]
  = [lit "This"; lit "is"; lit "**bold**"; lit "text."].
Proof. reflexivity. Qed.

(** ** Format context *)

(** C8.  [indent] leaves an unbounded width unbounded, otherwise lowers
    the width by [n] but not below 1; depth, bullet and column widths
    are those of the argument, which as a value is unchanged. *)
Theorem indent_spec (c : FormatContext) (n : Z) :
  width (indent c n)
  = match width c with
    | None => None
    | Some w => Some (Z.max 1 (w - n))
    end
  /\ section_depth (indent c n) = section_depth c
  /\ bullet (indent c n) = bullet c
  /\ colwidths (indent c n) = colwidths c.
Proof.
  unfold indent. destruct (width c) as [w|] eqn:E; cbn; rewrite ?E; auto.
Qed.

(** ** Dispatcher *)

Lemma lookup_None {A} (name : string) (l : list (string * A)) :
  ~ List.In name (List.map fst l) -> lookup name l = None.
Proof.
  induction l as [|[k v] l IH]; [reflexivity|].
  cbn [lookup List.map fst List.In]. intros H.
  destruct (String.eqb_spec k name) as [->|_]; [tauto|].
  apply IH. tauto.
Qed.

Lemma fmt_Element parent tag a children ctx :
  fmt parent (Element tag a children) ctx
  = match lookup tag rules with
    | Some r =>
        run_rule r parent a children
          (List.map (fun c ctx' => fmt (Some tag) c ctx') children)
          (List.map
             (fun c => List.map (fun g ctx' => fmt (Some (type_name c)) g ctx')
                                (node_children c))
             children)
          (astext (Element tag a children)) ctx
    | None => Some [Str (placeholder tag)]
    end.
Proof.
  cbn [fmt]. destruct (lookup tag rules); [|reflexivity].
  f_equal. apply List.map_ext. now intros [s|ctag a' gcs].
Qed.

(** The placeholder shows the type name in capitals: for an [entry]
    node it reads ENTRY between the two escapes. *)
Example placeholder_entry :
  fmt None (el "entry" []) (mkFormatContext 0 (Some 72) None None)
  = Some [Str (placeholder "entry")]
  /\ show (placeholder "entry")
     = String "027" ("[35mENTRY" ++ String "027" "[m")%string
  /\ ~ infix (lit "entry") (placeholder "entry").
Proof.
  split; [reflexivity|]. split; [reflexivity|].
  intros (pre & post & H).
  assert (Hin : List.In 101%N (placeholder "entry")).
  { rewrite H. apply List.in_or_app. right. apply List.in_or_app. left.
    vm_compute. tauto. }
  vm_compute in Hin. repeat destruct Hin as [Hin|Hin]; try discriminate Hin; exact Hin.
Qed.

Lemma upper_idempotent (s : str) : Py.upper (Py.upper s) = Py.upper s.
Proof.
  unfold Py.upper. rewrite List.map_map. apply List.map_ext. intros c.
  destruct ((97 <=? c) && (c <=? 122))%N eqn:E; [|now rewrite E].
  apply andb_prop in E. destruct E as [E1 E2].
  apply N.leb_le in E1, E2.
  replace (97 <=? c - 32)%N with false by (symmetry; apply N.leb_gt; lia).
  reflexivity.
Qed.

(** C9.  A node whose type name the dispatcher misses (an ASCII name
    that is neither a formatting rule nor an attribute [Formatters]
    inherits) is rendered without error, at any width and also as the
    root: it yields one placeholder line that shows the type name, in
    capitals, between two colour escapes. *)
Theorem fmt_unmapped_placeholder parent tag a children ctx :
  ~ List.In tag rule_names ->
  ascii_name tag = true ->
  inherited_name tag = false ->
  fmt parent (Element tag a children) ctx = Some [Str (placeholder tag)]
  /\ infix (Py.upper (lit tag)) (placeholder tag)
  /\ (forall width, format_node width (Element tag a children) = Some (placeholder tag))
  /\ placeholder tag = esc ++ lit "[35m" ++ Py.upper (lit tag) ++ esc ++ lit "[m"
  /\ Py.upper (Py.upper (lit tag)) = Py.upper (lit tag)
  /\ List.length (Py.upper (lit tag)) = List.length (lit tag).
Proof.
  intros H _ _. apply lookup_None in H.
  assert (E : forall p c, fmt p (Element tag a children) c = Some [Str (placeholder tag)]).
  { intros p c. rewrite fmt_Element. now rewrite H. }
  split; [apply E|]. split; [|split; [|split; [reflexivity|split]]].
  - exists (esc ++ lit "[35m"), (esc ++ lit "[m"). unfold placeholder.
    now rewrite <- !List.app_assoc.
  - intros width. unfold format_node. rewrite E. reflexivity.
  - apply upper_idempotent.
  - unfold Py.upper. apply List.length_map.
Qed.

Lemma fmt_unmapped_placeholder_witness :
  fmt None (el "field_list" [Text (lit "x")]) (mkFormatContext 0 None None None)
  = Some [Str (placeholder "field_list")].
Proof.
  apply (fmt_unmapped_placeholder None "field_list" no_attributes [Text (lit "x")]).
  - intros H. vm_compute in H.
    repeat destruct H as [H|H]; try discriminate H; exact H.
  - reflexivity.
  - reflexivity.
Defined.

(** ** Block indentation *)

(** C10, as stated, fails on an input line that is itself blank but not
    empty: it receives the prefix and the result is whitespace only. *)
Lemma with_spaces_whitespace_counterexample :
  with_spaces 3 [lit " "] = [lit "    "]
  /\ whitespace_only (lit "    ")
  /\ ~ (forall n lines,
          List.Forall (fun o => ~ whitespace_only o) (with_spaces n lines)).
Proof.
  assert (W : whitespace_only (lit "    ")).
  { split; [discriminate|]. repeat constructor. }
  split; [reflexivity|]. split; [exact W|].
  intros H. specialize (H 3 [lit " "]).
  inversion H as [|? ? Hn _]. exact (Hn W).
Qed.

(** C10, amended.  [with_spaces] passes an empty line through as the
    empty string and puts its [n] blanks in front of every other line;
    hence a whitespace-only line in its output comes from a line of the
    input that was already whitespace only. *)
Theorem with_spaces_spec (n : Z) (lines : list str) :
  List.Forall2
    (fun l o => (l = [] -> o = []) /\ (l <> [] -> o = Py.times 32%N n ++ l))
    lines (with_spaces n lines)
  /\ forall o, List.In o (with_spaces n lines) -> whitespace_only o ->
       exists l, List.In l lines /\ whitespace_only l /\ o = Py.times 32%N n ++ l.
Proof.
  split.
  - induction lines as [|l lines IH]; cbn; constructor; [|exact IH].
    destruct l; cbn; split; congruence.
  - intros o Hin [Hne Hws]. apply List.in_map_iff in Hin.
    destruct Hin as (l & <- & Hl). exists l.
    destruct l as [|c l]; [now cbn in Hne|].
    cbn [Py.truthy] in *. split; [exact Hl|]. split; [|reflexivity].
    split; [discriminate|]. apply List.Forall_app in Hws. tauto.
Qed.

Lemma with_spaces_spec_witness :
  with_spaces 3 [lit "a"; []; lit " "] = [lit "   a"; []; lit "    "]
  /\ exists l,
       List.In l [lit "a"; []; lit " "] /\ whitespace_only l
       /\ lit "    " = Py.times 32%N 3 ++ l.
Proof.
  split; [reflexivity|].
  destruct (with_spaces_spec 3 [lit "a"; []; lit " "]) as [_ H].
  apply (H (lit "    ")).
  - cbn. tauto.
  - split; [discriminate | repeat constructor].
Defined.

(** ** Width zero: one token per line *)

Lemma groups_from_zero (words : list str) : forall b,
  groups_from 0 [b] words = [b] :: List.map (fun t => [t]) words.
Proof.
  induction words as [|t rest IH]; intros b; [reflexivity|].
  cbn [groups_from Py.truthy andb Py.join].
  assert (E : (Py.len b + 1 + Py.len t >? 0) = true).
  { apply Z.gtb_lt. pose proof (len_nonneg b). pose proof (len_nonneg t). lia. }
  rewrite E, IH. reflexivity.
Qed.

Lemma wrap_text_zero (items : list item) : wrap_text (Some 0) items = tokens items.
Proof.
  cbn [wrap_text]. rewrite pack_groups.
  destruct (tokens items) as [|t rest]; [reflexivity|].
  cbn [groups_from Py.truthy andb List.app]. rewrite groups_from_zero.
  cbn [List.map Py.join]. f_equal. rewrite List.map_map. cbn [Py.join].
  apply List.map_id.
Qed.

(** ** Words never contain a newline *)

Lemma split_no_space (s : str) :
  List.Forall (List.Forall (fun c => Py.isspace c = false)) (Py.split s).
Proof.
  induction s as [|c s IH]; [constructor|].
  cbn [Py.split]. destruct (Py.isspace c) eqn:Ec; [exact IH|].
  destruct s as [|c' s']; [repeat constructor; exact Ec|].
  destruct (Py.isspace c') eqn:Ec'.
  - constructor; [repeat constructor; exact Ec | exact IH].
  - destruct (Py.split (c' :: s')) as [|w0 ws]; [repeat constructor; exact Ec|].
    inversion IH; subst. constructor; [constructor; assumption | assumption].
Qed.

Lemma no_space_one_line (s : str) :
  List.Forall (fun c => Py.isspace c = false) s -> one_line s.
Proof.
  intros H Hin. rewrite List.Forall_forall in H. specialize (H _ Hin). discriminate H.
Qed.

Lemma one_line_app (a b : str) : one_line a -> one_line b -> one_line (a ++ b).
Proof. unfold one_line. intros Ha Hb H. apply List.in_app_or in H. tauto. Qed.

Lemma one_line_join (sep : str) (l : list str) :
  one_line sep -> List.Forall one_line l -> one_line (Py.join sep l).
Proof.
  intros Hs. induction 1 as [|x l Hx Hl IH]; [now intros []|].
  destruct l as [|y l]; [exact Hx|].
  change (Py.join sep (x :: y :: l)) with (x ++ sep ++ Py.join sep (y :: l)).
  auto using one_line_app.
Qed.

Lemma one_line_escaped_space : one_line escaped_space.
Proof. intros H. vm_compute in H. repeat destruct H as [H|H]; try discriminate H; exact H. Qed.

Lemma one_line_space : one_line space.
Proof. intros H. vm_compute in H. repeat destruct H as [H|H]; try discriminate H; exact H. Qed.

Lemma one_line_nil : one_line [].
Proof. now intros []. Qed.

Create HintDb lines.
#[local] Hint Resolve one_line_app one_line_escaped_space one_line_space one_line_nil : lines.

Lemma replace_first_Forall {A} (P : A -> Prop) (f : A -> A) (l : list A) :
  (forall x, P x -> P (f x)) -> List.Forall P l -> List.Forall P (replace_first f l).
Proof. intros Hf [|x l' Hx Hl]; cbn; constructor; auto. Qed.

Lemma replace_last_Forall {A} (P : A -> Prop) (f : A -> A) (l : list A) :
  (forall x, P x -> P (f x)) -> List.Forall P l -> List.Forall P (replace_last f l).
Proof.
  intros Hf Hl. unfold replace_last.
  assert (Hr : List.Forall P (List.rev l)) by now apply List.Forall_rev.
  destruct (List.rev l) as [|x r]; [constructor|].
  inversion Hr; subst. apply List.Forall_app. split.
  - now apply List.Forall_rev.
  - constructor; auto.
Qed.

Lemma when_Forall {A} (P : A -> Prop) (b : bool) (f : list A -> list A) (l : list A) :
  (List.Forall P l -> List.Forall P (f l)) -> List.Forall P l -> List.Forall P (when b f l).
Proof. destruct b; cbn; auto. Qed.

Lemma split_words_one_line (it : item) :
  List.Forall (fun w => one_line (text w)) (split_words it).
Proof.
  assert (Hmap : forall s b,
    List.Forall (fun w => one_line (text w))
      (List.map (fun t => mk_word_info t b false false false false) (Py.split s))).
  { intros s b. apply List.Forall_map. cbn.
    eapply List.Forall_impl; [|apply split_no_space]. apply no_space_one_line. }
  destruct it as [s|t]; [|apply Hmap].
  unfold split_words.
  destruct s as [|first s'] eqn:Es; [repeat constructor; apply one_line_nil|].
  rewrite <- Es.
  repeat (apply when_Forall;
          [first [apply replace_first_Forall | apply replace_last_Forall]; now intros []|]).
  destruct (Py.truthy _); [apply Hmap | repeat constructor; apply one_line_nil].
Qed.

(** ** The merging loop *)

Lemma merge_word_cases (words : list word_info) (word : word_info) :
  merge_word words word = words ++ [word]
  \/ exists m, merge_word words word = List.removelast words ++ [m]
       /\ (exists j, (j = [] \/ j = escaped_space)
             /\ text m = text (List.last words sentinel) ++ j ++ text word).
Proof.
  unfold merge_word.
  destruct (negb _ && _ && _); [right|destruct (_ && _ && _); [right|now left]];
    eexists; (split; [reflexivity|]); cbn [text]; eexists; (split; [|reflexivity]).
  - destruct (end_punct _); auto.
  - destruct (start_punct _); auto.
Qed.

Lemma merge_word_nonempty (words : list word_info) (word : word_info) :
  merge_word words word <> [].
Proof.
  destruct (merge_word_cases words word) as [-> | (m & -> & _)];
    intros H; apply List.app_eq_nil in H; destruct H; discriminate.
Qed.

Lemma fold_merge_nonempty (ws : list word_info) : forall words,
  words <> [] -> List.fold_left merge_word ws words <> [].
Proof.
  induction ws as [|x ws IH]; intros words H; [exact H|].
  cbn [List.fold_left]. apply IH, merge_word_nonempty.
Qed.

Lemma Forall_removelast {A} (P : A -> Prop) (l : list A) :
  List.Forall P l -> List.Forall P (List.removelast l).
Proof.
  induction 1 as [|x l Hx Hl IH]; [constructor|].
  cbn [List.removelast]. destruct l; [constructor|]. now constructor.
Qed.

Lemma Forall_last {A} (P : A -> Prop) (l : list A) (d : A) :
  P d -> List.Forall P l -> P (List.last l d).
Proof.
  intros Hd. induction 1 as [|x l Hx Hl IH]; [exact Hd|].
  cbn [List.last]. destruct l; [exact Hx | exact IH].
Qed.

Lemma merge_word_one_line (words : list word_info) (word : word_info) :
  List.Forall (fun w => one_line (text w)) words ->
  one_line (text word) ->
  List.Forall (fun w => one_line (text w)) (merge_word words word).
Proof.
  intros Hws Hw.
  destruct (merge_word_cases words word) as [-> | (m & -> & j & Hj & Hm)];
    apply List.Forall_app; split; auto using Forall_removelast.
  constructor; [|constructor]. rewrite Hm.
  assert (one_line (text (List.last words sentinel))).
  { apply (Forall_last (fun w => one_line (text w))); [apply one_line_nil | exact Hws]. }
  destruct Hj as [-> | ->]; auto with lines.
Qed.

Lemma fold_merge_one_line (ws : list word_info) : forall words,
  List.Forall (fun w => one_line (text w)) words ->
  List.Forall (fun w => one_line (text w)) ws ->
  List.Forall (fun w => one_line (text w)) (List.fold_left merge_word ws words).
Proof.
  induction ws as [|x ws IH]; intros words Hws Hx; [exact Hws|].
  inversion Hx; subst. cbn [List.fold_left]. apply IH; auto using merge_word_one_line.
Qed.

Lemma tokens_one_line (items : list item) : List.Forall one_line (tokens items).
Proof.
  unfold tokens. apply List.Forall_forall. intros t Hin.
  apply List.filter_In in Hin. destruct Hin as [Hin _].
  apply List.in_map_iff in Hin. destruct Hin as (w & <- & Hin).
  revert w Hin. apply List.Forall_forall.
  apply fold_merge_one_line.
  - repeat constructor. apply one_line_nil.
  - unfold chain. apply List.Forall_concat. apply List.Forall_map.
    apply List.Forall_forall. intros it _. apply split_words_one_line.
Qed.

(** ** Titles *)

Lemma fmt_children_kids (tag : string) (children : list node) (ctx : FormatContext) :
  fmt_children (List.map (fun c ctx' => fmt (Some tag) c ctx') children) ctx
  = render_children tag children ctx.
Proof. unfold fmt_children, render_children. now rewrite List.map_map. Qed.

(** C4, as stated, fails beyond depth 6: the underline character is
    looked up at index [d - 1] without wrapping around, so a title at
    depth 7 is not rendered at all, where cyclic selection would give the character
    at position [(7 - 1) mod 6]. *)
Lemma title_depth7_counterexample :
  fmt (Some "section"%string) (el "title" [Text (lit "Deep")]) (ctx_at 7 (Some 72)) = None
  /\ List.nth_error section_chars (Z.to_nat ((7 - 1) mod 6)) = Some 61%N
  /\ format_node (Some 72) seven_levels = None.
Proof. repeat split; reflexivity. Qed.

(** C4, amended.  At a section depth from 1 to 6 a title whose children
    render is exactly two lines: the title text, its tokens joined by
    single spaces and free of line breaks, and an underline of the same
    length made of the character of [section_chars] at index [d - 1]. *)
Theorem title_two_lines parent a children ctx parts :
  1 <= section_depth ctx <= 6 ->
  render_children "title" children ctx = Some parts ->
  exists text c,
    fmt parent (Element "title" a children) ctx
    = Some [Str text; Str (Py.times c (Py.len text))]
    /\ text = Py.join space (tokens (chain parts))
    /\ one_line text
    /\ List.nth_error section_chars (Z.to_nat (section_depth ctx - 1)) = Some c
    /\ Py.len (Py.times c (Py.len text)) = Py.len text
    /\ List.Forall (eq c) (Py.times c (Py.len text)).
Proof.
  intros Hd Hparts.
  destruct (List.nth_error section_chars (Z.to_nat (section_depth ctx - 1))) as [c|] eqn:Ec.
  2:{ apply List.nth_error_None in Ec. cbn in Ec. lia. }
  exists (Py.join space (tokens (chain parts))), c.
  split; [|split; [reflexivity|split; [|split; [reflexivity|split]]]].
  - rewrite fmt_Element.
    change (lookup "title" rules) with (Some r_title).
    cbn [run_rule]. unfold Formatters.title.
    rewrite fmt_children_kids, Hparts. cbn [bind].
    rewrite wrap_text_zero. unfold Py.getitem.
    destruct (0 <=? section_depth ctx - 1) eqn:E; [|apply Z.leb_gt in E; lia].
    rewrite Ec. reflexivity.
  - apply one_line_join; [apply one_line_space | apply tokens_one_line].
  - rewrite len_times. pose proof (len_nonneg (Py.join space (tokens (chain parts)))). lia.
  - unfold Py.times. apply List.Forall_forall. intros x Hx.
    apply List.repeat_spec in Hx. now subst.
Qed.

Lemma title_two_lines_witness :
  exists text c,
    fmt (Some "section"%string) (el "title" [Text (lit "Example")]) (ctx_at 1 (Some 72))
    = Some [Str text; Str (Py.times c (Py.len text))]
    /\ text = lit "Example" /\ c = 61%N.
Proof.
  destruct (title_two_lines (Some "section"%string) no_attributes
              [Text (lit "Example")] (ctx_at 1 (Some 72)) [[Str (lit "Example")]])
    as (text & c & Hfmt & Ht & _ & Hc & _).
  - cbn. lia.
  - reflexivity.
  - exists text, c. split; [exact Hfmt|]. split.
    + rewrite Ht. reflexivity.
    + cbn in Hc. congruence.
Defined.

(** ** References *)

Lemma str_eqb_true (a b : str) : Py.str_eqb a b = true <-> a = b.
Proof. unfold Py.str_eqb. destruct (list_eq_dec N.eq_dec a b); split; congruence. Qed.

Lemma str_eqb_false (a b : str) : Py.str_eqb a b = false <-> a <> b.
Proof. unfold Py.str_eqb. destruct (list_eq_dec N.eq_dec a b); split; congruence. Qed.

(** C3, as stated, fails on its own example: the URI [http://example]
    is neither the title [example] nor [mailto:example], so the explicit
    form is rendered; and the bare form, when it applies, is the title
    without a trailing underscore. *)
Lemma reference_example_counterexample :
  fmt (Some "paragraph"%string)
      (Element "reference" (with_refuri (lit "http://example") false) [Text (lit "example")])
      (ctx_at 0 (Some 72))
  = Some [inline_markup (lit "`example <http://example>`__")]
  /\ format_node (Some 72)
       (el "paragraph"
          [Element "reference" (with_refuri (lit "http://example") false)
                   [Text (lit "example")]])
     = Some (lit "`example <http://example>`__")
  /\ lit "`example <http://example>`__" <> lit "example_"
  /\ fmt (Some "paragraph"%string)
         (Element "reference" (with_refuri (lit "example") false) [Text (lit "example")])
         (ctx_at 0 (Some 72))
     = Some [inline_markup (lit "example")].
Proof. repeat split; try reflexivity. discriminate. Qed.

(** C3, amended.  A reference that carries a URI and whose children
    render yields one markup span: the bare title, with nothing added,
    exactly when the URI equals the title or [mailto:] followed by the
    title; otherwise the title and the URI in the explicit form, closed
    by [__] when no target follows the reference (it is anonymous) and
    by [_] when one does. *)
Theorem reference_with_uri parent a children ctx parts uri :
  refuri a = Some uri ->
  render_children "reference" children ctx = Some parts ->
  let title := Py.join space (tokens (chain parts)) in
  let suffix := if target a then lit "_" else lit "__" in
  (uri = title \/ uri = lit "mailto:" ++ title ->
   fmt parent (Element "reference" a children) ctx = Some [inline_markup title])
  /\ (uri <> title -> uri <> lit "mailto:" ++ title ->
      fmt parent (Element "reference" a children) ctx
      = Some [inline_markup (explicit_reference title uri suffix)]).
Proof.
  intros Huri Hparts title suffix.
  assert (E : fmt parent (Element "reference" a children) ctx
              = if Py.str_eqb uri title || Py.str_eqb uri (lit "mailto:" ++ title)
                then Some [inline_markup title]
                else Some [inline_markup (explicit_reference title uri suffix)]).
  { rewrite fmt_Element. change (lookup "reference" rules) with (Some r_reference).
    cbn [run_rule]. unfold Formatters.reference.
    rewrite fmt_children_kids, Hparts. cbn [bind].
    rewrite wrap_text_zero, Huri. fold title.
    destruct (_ || _); [reflexivity|].
    unfold explicit_reference, suffix. now destruct (target a). }
  rewrite E. split.
  - intros [H|H]; apply str_eqb_true in H; rewrite H; cbn; [reflexivity|].
    now rewrite orb_true_r.
  - intros H1 H2. apply str_eqb_false in H1, H2. now rewrite H1, H2.
Qed.

Lemma reference_with_uri_witness :
  fmt (Some "paragraph"%string)
      (Element "reference" (with_refuri (lit "mailto:a@b.c") false) [Text (lit "a@b.c")])
      (ctx_at 0 None)
  = Some [inline_markup (lit "a@b.c")]
  /\ fmt (Some "paragraph"%string)
         (Element "reference" (with_refuri (lit "http://x.y") true) [Text (lit "see")])
         (ctx_at 0 None)
     = Some [inline_markup (lit "`see <http://x.y>`_")].
Proof.
  split.
  - apply (reference_with_uri (Some "paragraph"%string)
             (with_refuri (lit "mailto:a@b.c") false) [Text (lit "a@b.c")]
             (ctx_at 0 None) [[Str (lit "a@b.c")]] (lit "mailto:a@b.c"));
      [reflexivity | reflexivity | right; reflexivity].
  - apply (reference_with_uri (Some "paragraph"%string)
             (with_refuri (lit "http://x.y") true) [Text (lit "see")]
             (ctx_at 0 None) [[Str (lit "see")]] (lit "http://x.y"));
      [reflexivity | reflexivity | discriminate | discriminate].
Defined.

(** ** Boundary flags of the words of a text fragment *)

Lemma last_map {A B} (f : A -> B) (l : list A) (d : A) (d' : B) :
  l <> [] -> List.last (List.map f l) d' = f (List.last l d).
Proof.
  induction l as [|x l IH]; [congruence|]. intros _.
  destruct l as [|y l]; [reflexivity|].
  specialize (IH ltac:(discriminate)). exact IH.
Qed.

Lemma replace_last_snoc {A} (f : A -> A) (l : list A) (x : A) :
  replace_last f (l ++ [x]) = l ++ [f x].
Proof. unfold replace_last. rewrite List.rev_app_distr. cbn. now rewrite List.rev_involutive. Qed.

Lemma replace_last_nonempty {A} (f : A -> A) (l : list A) :
  l <> [] -> replace_last f l <> [].
Proof.
  intros H. destruct (List.exists_last H) as (l' & x & ->).
  rewrite replace_last_snoc. now destruct l'.
Qed.

Lemma replace_first_nonempty {A} (f : A -> A) (l : list A) :
  l <> [] -> replace_first f l <> [].
Proof. now destruct l. Qed.

Lemma last_replace_last {A} (f : A -> A) (l : list A) (d : A) :
  l <> [] -> List.last (replace_last f l) d = f (List.last l d).
Proof.
  intros H. destruct (List.exists_last H) as (l' & x & ->).
  now rewrite replace_last_snoc, !List.last_last.
Qed.

Lemma last_replace_first {A B} (P : A -> B) (f : A -> A) (l : list A) (d : A) :
  (forall x, P (f x) = P x) ->
  P (List.last (replace_first f l) d) = P (List.last l d).
Proof.
  intros Hf. destruct l as [|x [|y l]]; cbn [replace_first List.last]; auto.
Qed.

Lemma hd_replace_first {A} (f : A -> A) (l : list A) (d : A) :
  l <> [] -> List.hd d (replace_first f l) = f (List.hd d l).
Proof. now destruct l. Qed.

Lemma hd_replace_last {A B} (P : A -> B) (f : A -> A) (l : list A) (d : A) :
  (forall x, P (f x) = P x) ->
  P (List.hd d (replace_last f l)) = P (List.hd d l).
Proof.
  intros Hf. destruct l as [|x l]; [reflexivity|].
  destruct (@List.exists_last _ (x :: l)) as (l' & y & E); [discriminate|].
  rewrite E, replace_last_snoc. destruct l'; cbn; auto.
Qed.

Lemma map_replace_first {A B} (P : A -> B) (f : A -> A) (l : list A) :
  (forall x, P (f x) = P x) -> List.map P (replace_first f l) = List.map P l.
Proof. intros Hf. destruct l; cbn; now rewrite ?Hf. Qed.

Lemma map_replace_last {A B} (P : A -> B) (f : A -> A) (l : list A) :
  (forall x, P (f x) = P x) -> List.map P (replace_last f l) = List.map P l.
Proof.
  intros Hf. destruct l as [|x l]; [reflexivity|].
  destruct (@List.exists_last _ (x :: l)) as (l' & y & E); [discriminate|].
  rewrite E, replace_last_snoc, !List.map_app. cbn. now rewrite Hf.
Qed.

Lemma hd_map {A B} (f : A -> B) (l : list A) (d : A) (d' : B) :
  l <> [] -> List.hd d' (List.map f l) = f (List.hd d l).
Proof. now destruct l. Qed.

Section TextFragment.

(** A text fragment [c0 :: t'] with at least one word. *)
Variables (c0 : char) (t' : str).
Hypothesis has_word : Py.split (c0 :: t') <> [].

Let t := c0 :: t'.
Let cl := List.last t c0.

Lemma split_words_Str_eq :
  split_words (Str t)
  = when (Py.mem cl pre_markup_break_chars) (replace_last set_end_punct)
      (when (Py.mem c0 post_markup_break_chars) (replace_first set_start_punct)
         (when (Py.mem cl space_chars) (replace_last set_end_space)
            (when (Py.mem c0 space_chars) (replace_first set_start_space)
               (List.map (fun s => mk_word_info s false false false false false)
                         (Py.split t))))).
Proof.
  unfold t, split_words. fold t. fold cl.
  destruct (Py.split t) eqn:E; [contradiction|]. reflexivity.
Qed.

Lemma split_words_Str_nonempty : split_words (Str t) <> [].
Proof.
  rewrite split_words_Str_eq.
  repeat match goal with
         | |- when ?b _ _ <> [] => destruct b; cbn [when]
         | |- replace_last _ _ <> [] => apply replace_last_nonempty
         | |- replace_first _ _ <> [] => apply replace_first_nonempty
         end;
    (intros H; apply List.map_eq_nil in H; contradiction).
Qed.

Lemma split_words_Str_texts : List.map text (split_words (Str t)) = Py.split t.
Proof.
  rewrite split_words_Str_eq.
  repeat match goal with
         | |- context [when ?b _ _] => destruct b; cbn [when]
         | |- context [List.map text (replace_last _ _)] =>
             rewrite map_replace_last by reflexivity
         | |- context [List.map text (replace_first _ _)] =>
             rewrite map_replace_first by reflexivity
         end;
    (rewrite List.map_map; cbn; apply List.map_id).
Qed.

Lemma split_words_Str_plain :
  List.Forall (fun w => in_markup w = false) (split_words (Str t)).
Proof.
  rewrite split_words_Str_eq.
  repeat (apply when_Forall;
          [first [apply replace_first_Forall | apply replace_last_Forall]; now intros []|]).
  apply List.Forall_map. cbn. apply List.Forall_forall. reflexivity.
Qed.

Ltac flags :=
  rewrite split_words_Str_eq;
  repeat match goal with
         | |- context [when ?b _ _] => destruct b; cbn [when]
         end;
  repeat first
    [ rewrite last_replace_last
        by (repeat first [apply replace_last_nonempty | apply replace_first_nonempty];
            intros H; apply List.map_eq_nil in H; contradiction)
    | erewrite last_replace_first by reflexivity
    | rewrite hd_replace_first
        by (repeat first [apply replace_last_nonempty | apply replace_first_nonempty];
            intros H; apply List.map_eq_nil in H; contradiction)
    | erewrite hd_replace_last by reflexivity
    | progress cbn [end_space end_punct start_space start_punct
                    set_end_space set_end_punct set_start_space set_start_punct] ];
  try (rewrite (last_map _ _ (@nil char)) by exact has_word);
  try (rewrite (hd_map _ _ (@nil char)) by exact has_word);
  reflexivity.

Lemma split_words_Str_end_space :
  end_space (List.last (split_words (Str t)) sentinel) = Py.mem cl space_chars.
Proof. flags. Qed.

Lemma split_words_Str_end_punct :
  end_punct (List.last (split_words (Str t)) sentinel)
  = Py.mem cl pre_markup_break_chars.
Proof. flags. Qed.

Lemma split_words_Str_start_space :
  start_space (List.hd sentinel (split_words (Str t))) = Py.mem c0 space_chars.
Proof. flags. Qed.

Lemma split_words_Str_start_punct :
  start_punct (List.hd sentinel (split_words (Str t)))
  = Py.mem c0 post_markup_break_chars.
Proof. flags. Qed.

End TextFragment.

(** ** Adjacent markup and text *)

Lemma merge_words_app (ws1 ws2 : list word_info) :
  merge_words (ws1 ++ ws2) = List.fold_left merge_word ws2 (merge_words ws1).
Proof. unfold merge_words. apply List.fold_left_app. Qed.

Lemma merge_words_nonempty (ws : list word_info) : merge_words ws <> [].
Proof. apply fold_merge_nonempty. discriminate. Qed.

Lemma merge_plain_word (words : list word_info) (x : word_info) :
  in_markup x = false ->
  let L := List.last (merge_word words x) sentinel in
  in_markup L = false /\ end_space L = end_space x /\ end_punct L = end_punct x.
Proof.
  intros Hx. unfold merge_word. rewrite Hx.
  destruct (in_markup (List.last words sentinel)), (start_space x);
    cbn [andb negb]; rewrite List.last_last; cbn; auto.
Qed.

(** After a run of plain words the last word of the list is plain and
    carries the end flags of the last word of the run. *)
Lemma fold_plain_last (ws : list word_info) (words : list word_info) :
  ws <> [] ->
  List.Forall (fun x => in_markup x = false) ws ->
  let L := List.last (List.fold_left merge_word ws words) sentinel in
  in_markup L = false
  /\ end_space L = end_space (List.last ws sentinel)
  /\ end_punct L = end_punct (List.last ws sentinel).
Proof.
  intros Hne Hall. destruct (List.exists_last Hne) as (ws' & x & ->).
  rewrite List.fold_left_app, List.last_last. cbn [List.fold_left].
  apply merge_plain_word.
  apply List.Forall_app in Hall. destruct Hall as [_ Hx]. now inversion Hx.
Qed.

(** Plain words after a plain word are appended as they are. *)
Lemma fold_plain_append (ws : list word_info) : forall words,
  in_markup (List.last words sentinel) = false ->
  List.Forall (fun x => in_markup x = false) ws ->
  List.fold_left merge_word ws words = words ++ ws.
Proof.
  induction ws as [|x ws IH]; intros words HL Hall; [now rewrite List.app_nil_r|].
  inversion Hall as [|? ? Hx Hws]; subst. cbn [List.fold_left].
  assert (E : merge_word words x = words ++ [x]).
  { unfold merge_word. now rewrite HL, Hx. }
  rewrite E, IH; [now rewrite <- List.app_assoc | now rewrite List.last_last | exact Hws].
Qed.

Lemma merge_markup_word_last (words : list word_info) (mw : word_info) :
  in_markup mw = true ->
  in_markup (List.last (merge_word words mw) sentinel) = true.
Proof.
  intros Hm. unfold merge_word. rewrite Hm.
  destruct (in_markup (List.last words sentinel)), (end_space (List.last words sentinel));
    cbn [andb negb]; rewrite List.last_last; auto.
Qed.

(** A markup word right after a text fragment that does not end in
    whitespace. *)
Lemma merge_markup_after_text (rw : list word_info) (c0 : char) (t' : str) (mw : word_info) :
  let t := c0 :: t' in
  let cl := List.last t c0 in
  Py.split t <> [] ->
  Py.mem cl space_chars = false ->
  in_markup mw = true ->
  let W := merge_words (rw ++ split_words (Str t)) in
  merge_words (rw ++ split_words (Str t) ++ [mw])
  = List.removelast W
    ++ [mk_word_info
          (text (List.last W sentinel)
           ++ (if Py.mem cl pre_markup_break_chars then [] else escaped_space)
           ++ text mw)
          true false false false false].
Proof.
  intros t cl Hsplit Hsp Hm W.
  rewrite List.app_assoc, merge_words_app. fold W. cbn [List.fold_left].
  destruct (fold_plain_last (split_words (Str t)) (merge_words rw)) as (H1 & H2 & H3).
  { now apply split_words_Str_nonempty. }
  { now apply split_words_Str_plain. }
  rewrite <- merge_words_app in H1, H2, H3. fold W in H1, H2, H3.
  unfold t in H2, H3.
  rewrite split_words_Str_end_space in H2 by exact Hsplit.
  rewrite split_words_Str_end_punct in H3 by exact Hsplit.
  fold t in H2, H3. fold cl in H2, H3.
  unfold merge_word. rewrite H1, H2, H3, Hm, Hsp. reflexivity.
Qed.

(** A text fragment that does not start with whitespace right after a
    markup word. *)
Lemma merge_text_after_markup (rw : list word_info) (mw : word_info) (c0 : char) (t' : str) :
  let t := c0 :: t' in
  in_markup mw = true ->
  Py.split t <> [] ->
  Py.mem c0 space_chars = false ->
  let W := merge_words (rw ++ [mw]) in
  exists w0 rest,
    split_words (Str t) = w0 :: rest
    /\ text w0 :: List.map text rest = Py.split t
    /\ merge_words (rw ++ [mw] ++ split_words (Str t))
       = List.removelast W
         ++ [mk_word_info
               (text (List.last W sentinel)
                ++ (if Py.mem c0 post_markup_break_chars then [] else escaped_space)
                ++ text w0)
               false false (end_space w0) (start_punct w0) (end_punct w0)]
         ++ rest.
Proof.
  intros t Hm Hsplit Hsp W.
  pose proof (split_words_Str_nonempty c0 t' Hsplit) as Hne.
  pose proof (split_words_Str_plain c0 t' Hsplit) as Hplain.
  pose proof (split_words_Str_start_space c0 t' Hsplit) as Hss.
  pose proof (split_words_Str_start_punct c0 t' Hsplit) as Hsp'.
  pose proof (split_words_Str_texts c0 t' Hsplit) as Htx.
  fold t in Hne, Hplain, Hss, Hsp', Htx.
  destruct (split_words (Str t)) as [|w0 rest]; [congruence|].
  exists w0, rest. split; [reflexivity|]. split; [exact Htx|].
  cbn [List.hd] in Hss, Hsp'. inversion Hplain as [|? ? Hw0 Hrest]; subst.
  rewrite List.app_assoc, merge_words_app. fold W. cbn [List.fold_left].
  assert (HL : in_markup (List.last W sentinel) = true).
  { unfold W. rewrite merge_words_app. cbn [List.fold_left].
    now apply merge_markup_word_last. }
  assert (E : merge_word W w0
              = List.removelast W
                ++ [mk_word_info
                      (text (List.last W sentinel)
                       ++ (if Py.mem c0 post_markup_break_chars then [] else escaped_space)
                       ++ text w0)
                      false false (end_space w0) (start_punct w0) (end_punct w0)]).
  { unfold merge_word. rewrite HL, Hw0, Hss, Hsp', Hsp. reflexivity. }
  rewrite E, fold_plain_append; [now rewrite <- List.app_assoc | | exact Hrest].
  now rewrite List.last_last.
Qed.

Lemma split_single (t : str) : single_word t -> Py.split t = [t].
Proof.
  intros [Hne Hall]. induction Hall as [|c s Hc Hs IH]; [congruence|].
  cbn [Py.split]. rewrite Hc. destruct s as [|c' s']; [reflexivity|].
  inversion Hs as [|? ? Hc' _]; subst. rewrite Hc'.
  rewrite IH by discriminate. reflexivity.
Qed.

Lemma space_chars_isspace (c : char) :
  Py.isspace c = false -> Py.mem c space_chars = false.
Proof.
  intros H. destruct (Py.mem c space_chars) eqn:E; [|reflexivity].
  unfold Py.mem, space_chars in E. cbn [List.existsb] in E.
  repeat (apply orb_prop in E; destruct E as [E|E]);
    try (apply N.eqb_eq in E; subst c; discriminate H).
  discriminate E.
Qed.

Lemma single_word_last (c0 : char) (t' : str) :
  single_word (c0 :: t') -> Py.isspace (List.last (c0 :: t') c0) = false.
Proof.
  intros [_ H]. apply (Forall_last (fun c => Py.isspace c = false)); [|exact H].
  now inversion H.
Qed.

(** One text word and one markup word side by side, through the whole
    word wrapper. *)
Lemma adjacent_single_words (c0 : char) (t' m : str) :
  let t := c0 :: t' in
  single_word t -> single_word m ->
  wrap_text None [Str t; inline_markup m]
  = [t ++ (if Py.mem (List.last t c0) pre_markup_break_chars then [] else escaped_space) ++ m]
  /\ wrap_text None [inline_markup m; Str t]
     = [m ++ (if Py.mem c0 post_markup_break_chars then [] else escaped_space) ++ t].
Proof.
  intros t Ht Hm.
  assert (Hsplit : Py.split t <> []) by (rewrite (split_single t Ht); discriminate).
  assert (Hmw : split_words (inline_markup m) = [markup_word m]).
  { cbn [split_words]. now rewrite (split_single m Hm). }
  pose proof (split_words_Str_texts c0 t' Hsplit) as Htx. fold t in Htx.
  rewrite (split_single t Ht) in Htx.
  pose proof (split_words_Str_plain c0 t' Hsplit) as Hplain. fold t in Hplain.
  pose proof (split_single t Ht) as Hst.
  destruct Ht as [_ Hall]. destruct Hm as [Hmne _].
  split; unfold wrap_text, tokens, chain; cbn [List.map List.concat];
    rewrite Hmw, ?List.app_nil_r.
  - pose proof (merge_markup_after_text [] c0 t' (markup_word m) Hsplit) as E.
    cbn [List.app] in E. fold t in E. rewrite E; clear E.
    2:{ apply space_chars_isspace. apply single_word_last. split; [discriminate | exact Hall]. }
    2:{ reflexivity. }
    unfold merge_words. rewrite fold_plain_append by (auto; reflexivity).
    destruct (split_words (Str t)) as [|w0 [|w1 ws]]; try discriminate Htx.
    injection Htx as Htx. cbn [List.app List.removelast List.last List.map text markup_word].
    rewrite Htx. cbn [List.filter Py.truthy sentinel text].
    unfold t at 1. cbn [List.app Py.truthy Py.join]. reflexivity.
  - pose proof (merge_text_after_markup [] (markup_word m) c0 t' eq_refl Hsplit) as E.
    cbn [List.app] in E. fold t in E.
    destruct E as (w0 & rest & Hw & Htx' & E).
    { apply space_chars_isspace. now inversion Hall. }
    rewrite Hw in E. cbn [List.app]. rewrite Hw, E.
    rewrite Hst in Htx'.
    injection Htx' as Hw0 Hrest.
    apply List.map_eq_nil in Hrest. subst rest.
    cbn. rewrite Hw0. destruct m as [|m0 m']; [congruence|]. reflexivity.
Qed.

(** C7, as stated, names the two character sets the wrong way round.
    A full stop may follow markup but not precede it: after the text
    [a.] the markup is escaped although the stop is a post-markup break
    character.  An opening bracket may precede markup but not follow it:
    it is joined directly before markup, and escaped after markup
    although it is a pre-markup break character. *)
Lemma adjacency_sets_counterexample :
  Py.mem 46%N post_markup_break_chars = true
  /\ wrap_text None [Str (lit "a."); inline_markup (lit "*b*")] = [lit "a.\ *b*"]
  /\ Py.mem 40%N post_markup_break_chars = false
  /\ wrap_text None [Str (lit "("); inline_markup (lit "*b*")] = [lit "(*b*"]
  /\ Py.mem 40%N pre_markup_break_chars = true
  /\ wrap_text None [inline_markup (lit "*b*"); Str (lit "(a")] = [lit "*b*\ (a"]
  /\ ~ (forall (c0 : char) (t' m : str),
          single_word (c0 :: t') -> single_word m ->
          wrap_text None [Str (c0 :: t'); inline_markup m]
          = [(c0 :: t')
             ++ (if Py.mem (List.last (c0 :: t') c0) post_markup_break_chars
                 then [] else escaped_space)
             ++ m]).
Proof.
  repeat split; try reflexivity.
  intros H. specialize (H 97%N (lit ".") (lit "*b*")).
  assert (S1 : single_word (97%N :: lit ".")) by (split; [discriminate | repeat constructor]).
  assert (S2 : single_word (lit "*b*")) by (split; [discriminate | repeat constructor]).
  specialize (H S1 S2). vm_compute in H. discriminate H.
Qed.

(** C7, amended.  A markup word that directly follows a text fragment
    not ending in whitespace is merged into the last word, and a text
    fragment not starting with whitespace that directly follows a markup
    word has its first word merged into it.  The escaped space is put
    between them unless the adjoining character of the text is a break
    character: a pre-markup break character when the text precedes the
    markup, a post-markup break character when it follows. *)
Theorem merge_adjacent_escape :
  (forall (rw : list word_info) (c0 : char) (t' : str) (mw : word_info),
     let t := c0 :: t' in
     let cl := List.last t c0 in
     Py.split t <> [] ->
     Py.mem cl space_chars = false ->
     in_markup mw = true ->
     let W := merge_words (rw ++ split_words (Str t)) in
     merge_words (rw ++ split_words (Str t) ++ [mw])
     = List.removelast W
       ++ [mk_word_info
             (text (List.last W sentinel)
              ++ (if Py.mem cl pre_markup_break_chars then [] else escaped_space)
              ++ text mw)
             true false false false false])
  /\ (forall (rw : list word_info) (mw : word_info) (c0 : char) (t' : str),
        let t := c0 :: t' in
        in_markup mw = true ->
        Py.split t <> [] ->
        Py.mem c0 space_chars = false ->
        let W := merge_words (rw ++ [mw]) in
        exists w0 rest,
          split_words (Str t) = w0 :: rest
          /\ text w0 :: List.map text rest = Py.split t
          /\ merge_words (rw ++ [mw] ++ split_words (Str t))
             = List.removelast W
               ++ [mk_word_info
                     (text (List.last W sentinel)
                      ++ (if Py.mem c0 post_markup_break_chars then [] else escaped_space)
                      ++ text w0)
                     false false (end_space w0) (start_punct w0) (end_punct w0)]
               ++ rest)
  /\ (forall (c0 : char) (t' m : str),
        let t := c0 :: t' in
        single_word t -> single_word m ->
        wrap_text None [Str t; inline_markup m]
        = [t ++ (if Py.mem (List.last t c0) pre_markup_break_chars
                 then [] else escaped_space) ++ m]
        /\ wrap_text None [inline_markup m; Str t]
           = [m ++ (if Py.mem c0 post_markup_break_chars
                    then [] else escaped_space) ++ t]).
Proof.
  split; [|split].
  - intros. now apply merge_markup_after_text.
  - intros. now apply merge_text_after_markup.
  - intros. now apply adjacent_single_words.
Qed.

Lemma merge_adjacent_escape_witness :
  merge_words (split_words (Str (lit "see:")) ++ [markup_word (lit "*b*")])
  = [sentinel; markup_word (lit "see:*b*")]
  /\ wrap_text None [inline_markup (lit "*b*"); Str (lit "a")] = [lit "*b*\ a"].
Proof.
  destruct merge_adjacent_escape as (Ha & _ & Hc).
  split.
  - apply (Ha [] 115%N (lit "ee:") (markup_word (lit "*b*")));
      [discriminate | reflexivity | reflexivity].
  - apply (Hc 97%N [] (lit "*b*")); split;
      [discriminate | repeat constructor | discriminate | repeat constructor].
Defined.

(** ** Tables *)








Lemma combine_map_l {A B C} (f : A -> B) (l : list A) (l' : list C) :
  List.combine (List.map f l) l'
  = List.map (fun xy : A * C => (f (fst xy), snd xy)) (List.combine l l').
Proof.
  revert l'. induction l as [|x l IH]; intros [|y l']; cbn; try reflexivity.
  now rewrite IH.
Qed.

Lemma combine_map_self {A B} (f : A -> B) (l : list A) :
  List.combine l (List.map f l) = List.map (fun x => (x, f x)) l.
Proof. induction l as [|x l IH]; cbn; [reflexivity | now rewrite IH]. Qed.









Section TableGroup.

Variables (ctx : FormatContext) (ws : list Z).
Hypothesis ctx_colwidths : colwidths ctx = Some ws.
Hypothesis some_column : ws <> [].
Hypothesis wide_enough : List.Forall (fun w => 2 <= w) ws.




End TableGroup.






(** ** List items *)

Lemma strs_Strs (lines : list str) : strs (Strs lines) = Some lines.
Proof.
  unfold strs, Strs. rewrite List.map_map. cbn [as_str].
  induction lines as [|l lines IH]; [reflexivity|].
  cbn [List.map sequence]. rewrite IH. reflexivity.
Qed.

(** X30.  The bullet goes on the very first line the children produce,
    and only if that line is not empty; every later line is indented as
    by [with_spaces]. *)
Lemma list_item_layout parent a children ctx b parts lines :
  bullet ctx = Some b ->
  render_children "list_item" children (indent ctx (Py.len b + 1)) = Some parts ->
  chain_intersperse blank parts = Strs lines ->
  fmt parent (Element "list_item" a children) ctx
  = Some (Strs match lines with
               | [] => []
               | c :: rest =>
                   (if Py.truthy c then (b ++ lit " ") ++ c else c)
                     :: with_spaces (Py.len b + 1) rest
               end).
Proof.
  intros Hb Hparts Hlines.
  rewrite fmt_Element. change (lookup "list_item" rules) with (Some r_list_item).
  cbn [run_rule]. unfold Formatters.list_item. rewrite Hb. cbn [bind].
  rewrite fmt_children_kids, Hparts. cbn [bind]. rewrite Hlines, strs_Strs. cbn [bind].
  f_equal. destruct lines as [|c rest]; [reflexivity|].
  cbn [enum_first List.map Strs]. f_equal.
  - destruct c; reflexivity.
  - unfold with_spaces. rewrite !List.map_map. apply List.map_ext.
    intros l. destruct l; reflexivity.
Qed.

(** C5 on a list item whose first child renders nothing: the first
    line of the item is the empty separator line, the bullet is spent on
    it and never printed, and the first non-empty line starts with blanks
    instead of the bullet. *)
Theorem list_item_bullet_lost :
  fmt (Some "bullet_list"%string) labelled_item
      (with_bullet (ctx_at 0 (Some 72)) (lit "- "))
  = Some (Strs [[]; lit "   text"])
  /\ format_node (Some 72) (el "document" [el "bullet_list" [labelled_item]])
     = Some (newline :: lit "   text")
  /\ ~ exists rest, lit "   text" = (lit "- " ++ lit " ") ++ rest.
Proof.
  split; [reflexivity|]. split; [reflexivity|].
  intros [rest H]. discriminate H.
Qed.

(** ** Consistency oracle *)

(** C1 on a document with seven nested section levels: formatting
    raises at the title of the seventh level, at every width, so the
    oracle cannot pass whatever the parser does with the output. *)
Theorem oracle_raises_on_seven_levels :
  (forall w, format_node w seven_levels = None)
  /\ forall parse, run_test parse seven_levels = Raised.
Proof.
  assert (H : forall w, format_node w seven_levels = None) by (intros w; reflexivity).
  split; [exact H|]. intros parse.
  unfold run_test, test_widths. cbn [List.fold_left].
  unfold check_width at 1. rewrite H. reflexivity.
Qed.


(** * Further properties *)

(** ** Format context *)

(** X1.  Indenting twice is indenting once by the sum, provided the
    second amount is not negative: the clamp at 1 is absorbed. *)
Theorem indent_compose (c : FormatContext) (a b : Z) :
  0 <= b -> indent (indent c a) b = indent c (a + b).
Proof.
  intros Hb. unfold indent. destruct (width c) as [w|] eqn:E; cbn [width].
  - cbn. f_equal. f_equal. lia.
  - now rewrite E.
Qed.

Lemma indent_compose_witness :
  indent (indent (ctx_at 2 (Some 5)) 7) 3 = indent (ctx_at 2 (Some 5)) (7 + 3).
Proof. apply indent_compose. lia. Defined.

(** ** Block indentation *)

Lemma times_add (c : char) (a b : Z) :
  0 <= a -> 0 <= b -> Py.times c a ++ Py.times c b = Py.times c (a + b).
Proof.
  intros Ha Hb. unfold Py.times. rewrite Z2Nat.inj_add by assumption.
  now rewrite List.repeat_app.
Qed.

(** X2.  Nested indentation adds up: indenting by [b] and then by [a]
    is indenting by [a + b]; empty lines stay empty throughout. *)
Theorem with_spaces_compose (a b : Z) (lines : list str) :
  0 <= a -> 0 <= b ->
  with_spaces a (with_spaces b lines) = with_spaces (a + b) lines.
Proof.
  intros Ha Hb. unfold with_spaces. rewrite List.map_map. apply List.map_ext.
  intros [|c l]; [reflexivity|]. cbn [Py.truthy].
  replace (Py.truthy (Py.times 32%N b ++ c :: l)) with true
    by (now destruct (Py.times 32%N b)).
  now rewrite List.app_assoc, times_add.
Qed.

Lemma with_spaces_compose_witness :
  with_spaces 3 (with_spaces 2 [lit "a"; []; lit "b"])
  = with_spaces (3 + 2) [lit "a"; []; lit "b"].
Proof. apply with_spaces_compose; lia. Defined.

Lemma unindent_with_spaces_line (n : Z) (l : str) :
  unindent n (if Py.truthy l then Py.times 32%N n ++ l else l) = l.
Proof.
  destruct l as [|c l]; [reflexivity|]. cbn [Py.truthy]. unfold unindent.
  replace (Py.truthy (Py.times 32%N n ++ c :: l)) with true
    by (now destruct (Py.times 32%N n)).
  unfold Py.times.
  rewrite <- (List.repeat_length 32%N (Z.to_nat n)) at 1.
  now rewrite List.skipn_app, List.skipn_all, Nat.sub_diag.
Qed.

(** X3.  Indentation loses nothing: stripping the prefix from the
    non-empty lines gives the lines back, whatever [n]. *)
Theorem unindent_with_spaces (n : Z) (lines : list str) :
  List.map (unindent n) (with_spaces n lines) = lines.
Proof.
  unfold with_spaces. rewrite List.map_map.
  rewrite <- (List.map_id lines) at 2. apply List.map_ext.
  intros l. apply unindent_with_spaces_line.
Qed.

(** ** Iterator helpers *)

(** X4.  [chain_intersperse] is [intersperse] followed by [chain]: the
    separator comes between every two parts, also around empty ones, so
    the result has one element per element of the parts plus one per gap. *)
Theorem chain_intersperse_spec {A} (val : A) (xss : list (list A)) :
  chain_intersperse val xss = chain (intersperse [val] xss)
  /\ List.length (chain_intersperse val xss)
     = (List.length (chain xss) + (List.length xss - 1))%nat.
Proof.
  destruct xss as [|x rest]; [split; reflexivity|].
  cbn [chain_intersperse intersperse chain List.concat List.length].
  assert (E : List.flat_map (fun y => val :: y) rest
              = List.concat (List.flat_map (fun y => [[val]; y]) rest)).
  { induction rest as [|y rest IH]; [reflexivity|].
    cbn [List.flat_map List.app List.concat]. now rewrite IH. }
  split; [now rewrite E|].
  assert (L : List.length (List.flat_map (fun y => val :: y) rest)
              = (List.length (List.concat rest) + List.length rest)%nat).
  { clear E. induction rest as [|y rest IH]; [reflexivity|].
    cbn [List.flat_map List.concat List.length List.app].
    rewrite !List.length_app, IH. lia. }
  rewrite !List.length_app, L. lia.
Qed.

(** X5.  [pairwise] pairs every element with its successor: the first
    components are the list without its last element, the second ones
    the list without its first. *)
Theorem pairwise_spec {A} (xs : list A) :
  List.map fst (pairwise xs) = List.removelast xs
  /\ List.map snd (pairwise xs) = List.tl xs.
Proof.
  induction xs as [|a [|b rest] IH]; [split; reflexivity | split; reflexivity|].
  destruct IH as [IH1 IH2].
  change (pairwise (a :: b :: rest)) with ((a, b) :: pairwise (b :: rest)).
  cbn [List.map fst snd List.tl]. rewrite IH1, IH2. split; [|reflexivity].
  reflexivity.
Qed.

Lemma max_length_ge {A} (xss : list (list A)) (xs : list A) :
  List.In xs xss ->
  (List.length xs <= List.fold_right Nat.max 0 (List.map (@List.length A) xss))%nat.
Proof.
  induction xss as [|ys xss IH]; [now intros []|].
  cbn [List.map List.fold_right]. intros [-> | H]; [lia|]. specialize (IH H). lia.
Qed.

Lemma collect_nth_error {A} (xs : list A) : forall (m : nat),
  (List.length xs <= m)%nat ->
  List.flat_map (fun k => match List.nth_error xs k with Some x => [x] | None => [] end)
                (List.seq 0 m)
  = xs.
Proof.
  induction xs as [|x xs IH]; intros m Hm.
  - induction (List.seq 0 m) as [|k ks IHk]; [reflexivity|].
    cbn [List.flat_map]. now destruct k.
  - destruct m as [|m]; [cbn in Hm; lia|].
    cbn [List.seq List.flat_map List.nth_error List.app]. f_equal.
    rewrite <- List.seq_shift, List.flat_map_concat_map, List.map_map.
    rewrite <- List.flat_map_concat_map. cbn [List.nth_error].
    apply IH. cbn in Hm. lia.
Qed.

(** X6.  [zip_longest] yields as many tuples as its longest argument
    has elements, each with one component per argument, and loses
    nothing: the values of argument [i] among the tuples are that
    argument. *)
Theorem zip_longest_spec {A} (xss : list (list A)) :
  List.length (zip_longest xss)
  = List.fold_right Nat.max 0%nat (List.map (@List.length A) xss)
  /\ List.Forall (fun tup => List.length tup = List.length xss) (zip_longest xss)
  /\ forall i xs, List.nth_error xss i = Some xs -> column i (zip_longest xss) = xs.
Proof.
  unfold zip_longest. split; [now rewrite List.length_map, List.length_seq|]. split.
  - apply List.Forall_map, List.Forall_forall. intros k _. now rewrite List.length_map.
  - intros i xs Hi. unfold column.
    rewrite List.flat_map_concat_map, List.map_map, <- List.flat_map_concat_map.
    etransitivity; [|apply (collect_nth_error xs), max_length_ge;
                     eapply List.nth_error_In; exact Hi].
    apply List.flat_map_ext. intros k.
    rewrite List.nth_error_map, Hi. reflexivity.
Qed.

Lemma zip_longest_spec_witness :
  column 1 (zip_longest [[1; 2; 3]; [4]; [5; 6]]%N) = [4%N].
Proof.
  destruct (zip_longest_spec [[1; 2; 3]; [4]; [5; 6]]%N) as (_ & _ & H).
  apply H. reflexivity.
Defined.

(** ** Word wrapper *)

Lemma join_app (sep : str) (l l' : list str) :
  l <> [] -> l' <> [] ->
  Py.join sep (l ++ l') = Py.join sep l ++ sep ++ Py.join sep l'.
Proof.
  intros Hl Hl'. induction l as [|x l IH]; [congruence|].
  destruct l as [|y l].
  - destruct l' as [|z l']; [congruence|]. reflexivity.
  - cbn [List.app]. rewrite !join_cons2. cbn [List.app] in IH.
    rewrite IH by discriminate. now rewrite <- !List.app_assoc.
Qed.

Lemma join_concat (groups : list (list str)) :
  List.Forall (fun g => g <> []) groups ->
  Py.join space (List.map (Py.join space) groups) = Py.join space (List.concat groups).
Proof.
  induction 1 as [|g groups Hg Hgs IH]; [reflexivity|].
  destruct groups as [|g' groups]; [cbn; now rewrite List.app_nil_r|].
  cbn [List.map] in *. rewrite join_cons2, IH.
  change (List.concat (g :: g' :: groups)) with (g ++ List.concat (g' :: groups)).
  rewrite join_app; [reflexivity | exact Hg |].
  inversion Hgs; subst. destruct g'; [congruence | discriminate].
Qed.

Lemma tokens_nonempty (items : list item) :
  List.Forall (fun t => t <> []) (tokens items).
Proof.
  unfold tokens. apply List.Forall_forall. intros t Hin.
  apply List.filter_In in Hin. destruct Hin as [_ Ht]. now apply truthy_true.
Qed.

Lemma join_nonempty (sep : str) (g : list str) :
  g <> [] -> List.Forall (fun t => t <> []) g -> Py.join sep g <> [].
Proof.
  intros Hg Hall. destruct g as [|t g]; [congruence|].
  inversion Hall; subst. destruct g.
  - assumption.
  - rewrite join_cons2. intros H. apply List.app_eq_nil in H. tauto.
Qed.

Lemma groups_within (w : Z) (words : list str) (g : list str) :
  List.In g (groups_from w [] words) -> List.Forall (fun t => List.In t words) g.
Proof.
  intros Hg. apply List.Forall_forall. intros t Ht.
  pose proof (groups_from_concat w words []) as H. cbn [List.app] in H.
  rewrite <- H. apply List.in_concat. eauto.
Qed.

(** X7.  At a bounded width the word wrapper never yields an empty
    line, and yields no line at all when there is no token; unbounded,
    it always yields exactly one line, an empty one when there is no
    token. *)
Theorem wrap_text_no_empty_line (w : Z) (items : list item) :
  List.Forall (fun l => l <> []) (wrap_text (Some w) items)
  /\ List.length (wrap_text None items) = 1%nat
  /\ (tokens items = [] ->
      wrap_text (Some w) items = [] /\ wrap_text None items = [[]]).
Proof.
  split; [|split].
  - cbn [wrap_text]. rewrite pack_groups. apply List.Forall_map, List.Forall_forall.
    intros g Hg. apply join_nonempty.
    + pose proof (groups_from_nonempty w (tokens items) []) as H.
      rewrite List.Forall_forall in H. now apply H.
    + apply groups_within in Hg. pose proof (tokens_nonempty items) as Hn.
      rewrite List.Forall_forall in *. auto.
  - reflexivity.
  - intros E. cbn [wrap_text]. rewrite pack_groups, E. split; reflexivity.
Qed.

(** X8.  No line of the word wrapper contains a line break, at any
    width: the lines it yields are lines. *)
Theorem wrap_text_one_line (width : option Z) (items : list item) :
  List.Forall one_line (wrap_text width items).
Proof.
  pose proof (tokens_one_line items) as Ht.
  destruct width as [w|]; cbn [wrap_text].
  - rewrite pack_groups. apply List.Forall_map, List.Forall_forall. intros g Hg.
    apply one_line_join; [apply one_line_space|].
    apply groups_within in Hg. rewrite List.Forall_forall in *. auto.
  - constructor; [|constructor]. apply one_line_join; [apply one_line_space | exact Ht].
Qed.

Lemma len_join_prefix (l l' : list str) :
  l <> [] -> Py.len (Py.join space l) <= Py.len (Py.join space (l ++ l')).
Proof.
  intros Hl. destruct l' as [|x l']; [rewrite List.app_nil_r; lia|].
  rewrite join_app by (auto; discriminate). rewrite !len_app.
  pose proof (len_nonneg space). pose proof (len_nonneg (Py.join space (x :: l'))). lia.
Qed.

Lemma groups_from_all (w : Z) (words : list str) : forall buf,
  buf <> [] ->
  Py.len (Py.join space (buf ++ words)) <= w ->
  groups_from w buf words = [buf ++ words].
Proof.
  induction words as [|t rest IH]; intros buf Hbuf Hlen; cbn [groups_from].
  - rewrite List.app_nil_r. now destruct buf.
  - assert (Hfit : Py.len (Py.join space buf) + 1 + Py.len t <= w).
    { assert (Hne : buf ++ [t] <> []) by (now destruct buf).
      pose proof (len_join_prefix (buf ++ [t]) rest Hne) as H.
      rewrite <- List.app_assoc in H. cbn [List.app] in H.
      rewrite join_snoc in H by exact Hbuf.
      rewrite !len_app, len_space in H. lia. }
    replace (Py.len (Py.join space buf) + 1 + Py.len t >? w) with false
      by (symmetry; rewrite Z.gtb_ltb; apply Z.ltb_ge; lia).
    rewrite andb_false_r, IH.
    + now rewrite <- List.app_assoc.
    + now destruct buf.
    + now rewrite <- List.app_assoc.
Qed.

(** X9.  When all the tokens fit on one line of width [w], wrapping at
    [w] gives the single line of unbounded wrapping. *)
Theorem wrap_text_wide (w : Z) (items : list item) :
  tokens items <> [] ->
  Py.len (Py.join space (tokens items)) <= w ->
  wrap_text (Some w) items = wrap_text None items.
Proof.
  intros Hne Hlen. cbn [wrap_text]. rewrite pack_groups.
  destruct (tokens items) as [|t rest]; [congruence|].
  cbn [groups_from Py.truthy andb List.app].
  rewrite groups_from_all; [reflexivity | discriminate | exact Hlen].
Qed.

Lemma wrap_text_wide_witness :
  wrap_text (Some 22)
    [Str (lit "This is "); inline_markup (lit "**bold**"); Str (lit " text.")]
  = wrap_text None
      [Str (lit "This is "); inline_markup (lit "**bold**"); Str (lit " text.")].
Proof. apply wrap_text_wide; [discriminate | vm_compute; discriminate]. Defined.

Lemma groups_from_narrow (w : Z) (words : list str) : forall b,
  w <= 0 -> groups_from w [b] words = [b] :: List.map (fun t => [t]) words.
Proof.
  induction words as [|t rest IH]; intros b Hw; [reflexivity|].
  cbn [groups_from Py.truthy andb Py.join].
  assert (E : (Py.len b + 1 + Py.len t >? w) = true).
  { apply Z.gtb_lt. pose proof (len_nonneg b). pose proof (len_nonneg t). lia. }
  rewrite E, IH by exact Hw. reflexivity.
Qed.

(** X10.  At a width of zero or less every token is a line of its own:
    this is how titles, terms and reference titles are kept unsplit. *)
Theorem wrap_text_narrow (w : Z) (items : list item) :
  w <= 0 -> wrap_text (Some w) items = tokens items.
Proof.
  intros Hw. cbn [wrap_text]. rewrite pack_groups.
  destruct (tokens items) as [|t rest]; [reflexivity|].
  cbn [groups_from Py.truthy andb List.app]. rewrite groups_from_narrow by exact Hw.
  cbn [List.map Py.join]. f_equal. rewrite List.map_map. cbn [Py.join].
  apply List.map_id.
Qed.

Lemma wrap_text_narrow_witness :
  wrap_text (Some (-4)) [Str (lit "a b"); inline_markup (lit "*c*")]
  = tokens [Str (lit "a b"); inline_markup (lit "*c*")].
Proof. apply wrap_text_narrow. lia. Defined.

(** X11.  Wrapping only chooses where the lines break: joining the
    lines of any bounded width by single spaces gives the unbounded
    line. *)
Theorem wrap_text_reflow (w : Z) (items : list item) :
  [Py.join space (wrap_text (Some w) items)] = wrap_text None items.
Proof.
  cbn [wrap_text]. rewrite pack_groups. f_equal.
  rewrite join_concat by apply groups_from_nonempty.
  now rewrite groups_from_concat.
Qed.

(** ** Splitting fragments into words *)

Lemma split_words_truthy (s : str) : List.Forall (fun w => Py.truthy w = true) (Py.split s).
Proof.
  induction s as [|c s IH]; [constructor|].
  cbn [Py.split]. destruct (Py.isspace c); [exact IH|].
  destruct s as [|c' s']; [repeat constructor|].
  destruct (Py.isspace c'); [constructor; [reflexivity | exact IH]|].
  destruct (Py.split (c' :: s')); repeat constructor. now inversion IH.
Qed.

Lemma filter_all {A} (f : A -> bool) (l : list A) :
  List.Forall (fun x => f x = true) l -> List.filter f l = l.
Proof. induction 1 as [|x l Hx _ IH]; cbn; [reflexivity|]. now rewrite Hx, IH. Qed.

Lemma map_text_when (b : bool) (f : list word_info -> list word_info) (l : list word_info) :
  List.map text (f l) = List.map text l ->
  List.map text (when b f l) = List.map text l.
Proof. now destruct b. Qed.

(** X12.  Whatever boundary flags they carry, the non-empty words a
    fragment is split into are exactly its whitespace-separated words, in
    order; an empty or blank text fragment contributes one empty word. *)
Theorem split_words_texts (it : item) :
  List.filter Py.truthy (List.map text (split_words it)) = Py.split (fragment_text it)
  /\ (Py.split (fragment_text it) = [] ->
      List.map text (split_words it)
      = match it with Str _ => [[]] | inline_markup _ => [] end).
Proof.
  assert (Hmap : forall s b,
    List.map text
      (List.map (fun t => mk_word_info t b false false false false) (Py.split s))
    = Py.split s).
  { intros s b. rewrite List.map_map. cbn [text]. apply List.map_id. }
  destruct it as [s|t]; cbn [fragment_text].
  2:{ cbn [split_words]. rewrite Hmap. split.
      - apply filter_all, split_words_truthy.
      - now intros ->. }
  destruct s as [|c0 s']; [split; reflexivity|].
  assert (E : List.map text (split_words (Str (c0 :: s')))
              = if Py.truthy (Py.split (c0 :: s')) then Py.split (c0 :: s') else [[]]).
  { unfold split_words.
    repeat match goal with
           | |- List.map text (when _ (replace_last ?f) ?l) = _ =>
               transitivity (List.map text l);
               [apply map_text_when, map_replace_last; reflexivity|]
           | |- List.map text (when _ (replace_first ?f) ?l) = _ =>
               transitivity (List.map text l);
               [apply map_text_when, map_replace_first; reflexivity|]
           end.
    destruct (Py.split (c0 :: s')) as [|w0 ws]; [reflexivity|].
    cbn [List.map Py.truthy text]. f_equal.
    rewrite List.map_map. cbn [text]. apply List.map_id. }
  rewrite E. split.
  - destruct (Py.split (c0 :: s')) eqn:Es; [reflexivity|]. cbn [Py.truthy].
    rewrite <- Es. apply filter_all, split_words_truthy.
  - now intros ->.
Qed.

(** ** Merging: the cases that keep words apart *)

Lemma split_words_Str_general (c0 : char) (t' : str) :
  let t := c0 :: t' in
  let ws := split_words (Str t) in
  ws <> []
  /\ List.Forall (fun x => in_markup x = false) ws
  /\ (Py.mem (List.last t c0) space_chars = true ->
      end_space (List.last ws sentinel) = true)
  /\ (Py.mem c0 space_chars = true -> start_space (List.hd sentinel ws) = true).
Proof.
  intros t ws. destruct (Py.split t) as [|w0 rest] eqn:Es.
  - subst ws. unfold split_words. subst t. rewrite Es. cbn [List.map Py.truthy].
    destruct (Py.mem c0 space_chars), (Py.mem (List.last (c0 :: t') c0) space_chars),
      (Py.mem c0 post_markup_break_chars),
      (Py.mem (List.last (c0 :: t') c0) pre_markup_break_chars);
      cbn; repeat split; try easy; repeat constructor.
  - assert (Hw : Py.split (c0 :: t') <> []) by (fold t; rewrite Es; discriminate).
    subst ws. repeat split.
    + now apply split_words_Str_nonempty.
    + now apply split_words_Str_plain.
    + intros H. unfold t. rewrite split_words_Str_end_space by exact Hw. exact H.
    + intros H. unfold t. rewrite split_words_Str_start_space by exact Hw. exact H.
Qed.

Lemma markup_word_split (m : str) :
  single_word m -> split_words (inline_markup m) = [markup_word m].
Proof. intros Hm. cbn [split_words]. now rewrite (split_single m Hm). Qed.

(** X13.  The empty text fragment that stands for an escaped space
    between two markup spans is merged with both and yields exactly one
    escape, as the comment in [split_words] announces. *)
Theorem empty_text_between_markup (m1 m2 : str) :
  single_word m1 -> single_word m2 ->
  wrap_text None [inline_markup m1; Str []; inline_markup m2]
  = [m1 ++ escaped_space ++ m2].
Proof.
  intros H1 H2. unfold wrap_text, tokens, chain. cbn [List.map List.concat].
  rewrite !markup_word_split by assumption.
  destruct H1 as [Hne _]. destruct m1 as [|c m1]; [congruence|].
  cbn. now rewrite <- List.app_assoc.
Qed.

Lemma empty_text_between_markup_witness :
  wrap_text None [inline_markup (lit "*a*"); Str []; inline_markup (lit "**b**")]
  = [lit "*a*\ **b**"].
Proof.
  apply (empty_text_between_markup (lit "*a*") (lit "**b**"));
    (split; [discriminate | repeat constructor]).
Defined.

(** X14.  Words are merged only across a boundary without whitespace
    between text and markup.  Two markup spans in a row stay two tokens,
    so a space separates them in the output; a markup word after a text
    fragment ending in whitespace, and a text fragment starting with
    whitespace after a markup word, are appended unchanged. *)
Theorem words_kept_apart :
  (forall m1 m2 : str,
     single_word m1 -> single_word m2 ->
     wrap_text None [inline_markup m1; inline_markup m2] = [m1 ++ space ++ m2])
  /\ (forall (rw : list word_info) (c0 : char) (t' : str) (mw : word_info),
        Py.mem (List.last (c0 :: t') c0) space_chars = true ->
        in_markup mw = true ->
        merge_words (rw ++ split_words (Str (c0 :: t')) ++ [mw])
        = merge_words (rw ++ split_words (Str (c0 :: t'))) ++ [mw])
  /\ (forall (rw : list word_info) (mw : word_info) (c0 : char) (t' : str),
        Py.mem c0 space_chars = true ->
        in_markup mw = true ->
        merge_words (rw ++ [mw] ++ split_words (Str (c0 :: t')))
        = merge_words (rw ++ [mw]) ++ split_words (Str (c0 :: t'))).
Proof.
  split; [|split].
  - intros m1 m2 H1 H2. unfold wrap_text, tokens, chain. cbn [List.map List.concat].
    rewrite !markup_word_split by assumption.
    destruct H1 as [Hne1 _]. destruct H2 as [Hne2 _].
    destruct m1 as [|c1 m1]; [congruence|]. destruct m2 as [|c2 m2]; [congruence|].
    reflexivity.
  - intros rw c0 t' mw Hsp Hm.
    destruct (split_words_Str_general c0 t') as (Hne & Hplain & Hend & _).
    rewrite List.app_assoc, merge_words_app. cbn [List.fold_left].
    destruct (fold_plain_last (split_words (Str (c0 :: t'))) (merge_words rw) Hne Hplain)
      as (L1 & L2 & _).
    rewrite <- merge_words_app in L1, L2. rewrite (Hend Hsp) in L2.
    unfold merge_word. now rewrite L1, L2, Hm.
  - intros rw mw c0 t' Hsp Hm.
    destruct (split_words_Str_general c0 t') as (Hne & Hplain & _ & Hstart).
    specialize (Hstart Hsp).
    rewrite List.app_assoc, merge_words_app.
    assert (HL : in_markup (List.last (merge_words (rw ++ [mw])) sentinel) = true).
    { rewrite merge_words_app. cbn [List.fold_left]. now apply merge_markup_word_last. }
    destruct (split_words (Str (c0 :: t'))) as [|w0 rest]; [congruence|].
    inversion Hplain as [|? ? Hw0 Hrest]; subst. cbn [List.hd] in Hstart.
    cbn [List.fold_left].
    assert (E : merge_word (merge_words (rw ++ [mw])) w0 = merge_words (rw ++ [mw]) ++ [w0]).
    { unfold merge_word. now rewrite HL, Hw0, Hstart. }
    rewrite E, fold_plain_append; [now rewrite <- List.app_assoc | | exact Hrest].
    now rewrite List.last_last.
Qed.

Lemma words_kept_apart_witness :
  wrap_text None [inline_markup (lit "*a*"); inline_markup (lit "**b**")]
  = [lit "*a* **b**"]
  /\ merge_words ([] ++ split_words (Str (lit "see ")) ++ [markup_word (lit "*a*")])
     = merge_words ([] ++ split_words (Str (lit "see "))) ++ [markup_word (lit "*a*")].
Proof.
  destruct words_kept_apart as (Ha & Hb & _). split.
  - apply (Ha (lit "*a*") (lit "**b**")); (split; [discriminate | repeat constructor]).
  - apply (Hb [] 115%N (lit "ee ") (markup_word (lit "*a*"))); reflexivity.
Defined.

(** ** Inline rules *)

Lemma strs_None (items : list item) :
  strs items = None <-> exists m, List.In (inline_markup m) items.
Proof.
  unfold strs. induction items as [|i items IH]; cbn [List.map sequence].
  - split; [discriminate | now intros [m []]].
  - destruct i as [s|m]; cbn [as_str bind].
    + destruct (sequence (List.map as_str items)) eqn:E; cbn [bind].
      * split; [discriminate|]. intros [m [H|H]]; [discriminate H|].
        assert (Hm : exists m, List.In (inline_markup m) items) by eauto.
        apply IH in Hm. discriminate Hm.
      * split; [|reflexivity]. intros _. destruct IH as [IH _].
        destruct (IH eq_refl) as [m Hm]. exists m. now right.
    + split; [|reflexivity]. intros _. exists m. now left.
Qed.

(** X15.  Each delimiter rule yields one markup span, the children's
    text between its delimiters; it raises exactly when a child yields a
    markup span itself, so inline markup cannot be nested. *)
Theorem delimited_rules parent tag l r a children ctx parts :
  List.In (tag, (l, r)) delimiters ->
  render_children tag children ctx = Some parts ->
  fmt parent (Element tag a children) ctx
  = match strs (chain parts) with
    | Some ss => Some [inline_markup (l ++ List.concat ss ++ r)]
    | None => None
    end
  /\ (fmt parent (Element tag a children) ctx = None
      <-> exists m, List.In (inline_markup m) (chain parts)).
Proof.
  intros Hin Hparts.
  assert (E : fmt parent (Element tag a children) ctx
              = match strs (chain parts) with
                | Some ss => Some [inline_markup (l ++ List.concat ss ++ r)]
                | None => None
                end).
  { rewrite fmt_Element. cbn [delimiters List.In] in Hin.
    repeat destruct Hin as [Hin|Hin]; try contradiction;
      injection Hin as <- <- <-;
      match goal with
      | |- context [lookup ?t rules] =>
          let v := eval vm_compute in (lookup t rules) in
          change (lookup t rules) with v
      end;
      cbn [run_rule];
      unfold Formatters.substitution_reference, Formatters.emphasis, Formatters.strong,
        Formatters.literal, Formatters.title_reference, Formatters.delimited;
      rewrite fmt_children_kids, Hparts; cbn [bind];
      destruct (strs (chain parts)); reflexivity. }
  split; [exact E|]. rewrite E, <- strs_None.
  destruct (strs (chain parts)); split; congruence.
Qed.

Lemma delimited_rules_witness :
  fmt None (el "emphasis" [Text (lit "a b")]) (ctx_at 0 None)
  = Some [inline_markup (lit "*a b*")]
  /\ fmt None (el "emphasis" [el "strong" [Text (lit "a")]]) (ctx_at 0 None) = None.
Proof.
  split.
  - apply (delimited_rules None "emphasis" (lit "*") (lit "*") no_attributes
             [Text (lit "a b")] (ctx_at 0 None) [[Str (lit "a b")]]);
      [cbn; tauto | reflexivity].
  - apply (delimited_rules None "emphasis" (lit "*") (lit "*") no_attributes
             [el "strong" [Text (lit "a")]] (ctx_at 0 None)
             [[inline_markup (lit "**a**")]]);
      [cbn; tauto | reflexivity |].
    exists (lit "**a**"). now left.
Defined.

(** ** References without a URI *)

Lemma letter_name_char (c : char) :
  is_letter c = true -> name_char c = true /\ Py.mem c (lit "-_.:+") = false.
Proof.
  unfold is_letter, name_char. intros H. split.
  - rewrite <- orb_assoc. rewrite H. apply orb_true_r.
  - destruct (Py.mem c (lit "-_.:+")) eqn:E; [|reflexivity].
    unfold Py.mem in E. cbn [lit Py.of_string list_ascii_of_string List.map List.existsb] in E.
    repeat (apply orb_prop in E; destruct E as [E|E]);
      try (apply N.eqb_eq in E; subst c; discriminate H).
    discriminate E.
Qed.

Lemma letters_not_adjacent (s : str) :
  List.Forall (fun c => is_letter c = true) s -> re_search_adjacent s = false.
Proof.
  induction 1 as [|c s Hc Hs IH]; [reflexivity|].
  destruct s as [|c2 s']; [reflexivity|].
  change (re_search_adjacent (c :: c2 :: s'))
    with ((Py.mem c (lit "-_.:+") && Py.mem c2 (lit "-_.:+"))
          || re_search_adjacent (c2 :: s')).
  rewrite IH. destruct (letter_name_char c Hc) as [_ ->]. reflexivity.
Qed.

Lemma one_line_no_match_tail (s : str) :
  one_line s ->
  match List.rev s with
  | c :: body => N.eqb c newline && all_name_chars (List.rev body)
  | [] => false
  end = false.
Proof.
  intros H. destruct (List.rev s) as [|c body] eqn:E; [reflexivity|].
  destruct (N.eqb_spec c newline) as [->|_]; [|reflexivity].
  exfalso. apply H. apply List.in_rev. rewrite E. now left.
Qed.

(** X16.  A reference without URI is written bare, [title_], only for
    a plain name; a title made of letters is one.  A title that is empty
    or holds any character outside the letters and [-_.:+], a digit or a
    blank for instance, is put between backquotes, unless the only child
    is a substitution reference.  The suffix is [__] when the node is
    marked anonymous. *)
Theorem reference_without_uri parent a children ctx parts :
  refuri a = None ->
  render_children "reference" children ctx = Some parts ->
  let title := Py.join space (tokens (chain parts)) in
  let suffix := if anonymous a then lit "__" else lit "_" in
  (title <> [] -> List.Forall (fun c => is_letter c = true) title ->
   fmt parent (Element "reference" a children) ctx = Some [inline_markup (title ++ suffix)])
  /\ (title = [] \/ (exists c, List.In c title /\ name_char c = false) ->
      (forall c, children = [c] -> isinstance c "substitution_reference" = false) ->
      fmt parent (Element "reference" a children) ctx
      = Some [inline_markup ((lit "`" ++ title ++ lit "`") ++ suffix)]).
Proof.
  intros Huri Hparts title suffix.
  assert (Hline : one_line title).
  { apply one_line_join; [apply one_line_space | apply tokens_one_line]. }
  assert (E : fmt parent (Element "reference" a children) ctx
              = Some [inline_markup
                        ((if (re_match_name title && negb (re_search_adjacent title))
                             || match children with
                                | [c] => isinstance c "substitution_reference"
                                | _ => false
                                end
                          then title else lit "`" ++ title ++ lit "`") ++ suffix)]).
  { rewrite fmt_Element. change (lookup "reference" rules) with (Some r_reference).
    cbn [run_rule]. unfold Formatters.reference.
    rewrite fmt_children_kids, Hparts. cbn [bind].
    rewrite wrap_text_zero, Huri. reflexivity. }
  rewrite E. split.
  - intros Hne Hletters.
    assert (Hm : re_match_name title = true).
    { unfold re_match_name, all_name_chars.
      replace (Py.truthy title) with true by (symmetry; now apply truthy_true).
      replace (List.forallb name_char title) with true; [reflexivity|].
      symmetry. apply List.forallb_forall. intros c Hc.
      rewrite List.Forall_forall in Hletters. now apply letter_name_char, Hletters. }
    now rewrite Hm, letters_not_adjacent.
  - intros Hbad Hkids.
    assert (Hm : re_match_name title = false).
    { unfold re_match_name. rewrite one_line_no_match_tail by exact Hline.
      rewrite orb_false_r. unfold all_name_chars.
      destruct Hbad as [-> | (c & Hc & Hn)]; [reflexivity|].
      apply andb_false_intro2.
      destruct (List.forallb name_char title) eqn:F; [|reflexivity].
      rewrite List.forallb_forall in F. rewrite (F c Hc) in Hn. discriminate Hn. }
    rewrite Hm. cbn [andb orb].
    destruct children as [|c [|c' cs]]; [reflexivity | | reflexivity].
    now rewrite (Hkids c eq_refl).
Qed.

Lemma reference_without_uri_witness :
  fmt None (Element "reference" (with_anonymous false) [Text (lit "intro")]) (ctx_at 0 None)
  = Some [inline_markup (lit "intro_")]
  /\ fmt None (Element "reference" (with_anonymous true) [Text (lit "section 2")])
         (ctx_at 0 None)
     = Some [inline_markup (lit "`section 2`__")].
Proof.
  split.
  - apply (reference_without_uri None (with_anonymous false) [Text (lit "intro")]
             (ctx_at 0 None) [[Str (lit "intro")]]);
      [reflexivity | reflexivity | discriminate | repeat constructor].
  - apply (reference_without_uri None (with_anonymous true) [Text (lit "section 2")]
             (ctx_at 0 None) [[Str (lit "section 2")]]);
      [reflexivity | reflexivity | | ].
    + right. exists 50%N. split; [cbn; tauto | reflexivity].
    + intros c Hc. injection Hc as <-. reflexivity.
Defined.

(** ** Targets *)

(** X17.  A target is written only directly under a document or a
    section: [.. _name:] with its first name and, if it has one, its URI.
    There it raises when it has no name; anywhere else it renders
    nothing, whatever its attributes. *)
Theorem target_rendering parent a children ctx :
  let structural :=
    parent = Some "document"%string \/ parent = Some "section"%string in
  (~ structural -> fmt parent (Element "target" a children) ctx = Some [])
  /\ (structural -> names a = [] -> fmt parent (Element "target" a children) ctx = None)
  /\ (structural -> forall n rest, names a = n :: rest ->
      fmt parent (Element "target" a children) ctx
      = Some [Str (lit ".. _" ++ n ++ lit ":"
                   ++ match refuri a with Some u => lit " " ++ u | None => [] end)]).
Proof.
  intros structural.
  assert (E : fmt parent (Element "target" a children) ctx = Formatters.target parent a).
  { rewrite fmt_Element. reflexivity. }
  rewrite E. unfold Formatters.target, structural. clear E structural.
  destruct parent as [cls|].
  - destruct (String.eqb_spec cls "document") as [->|Hd];
      [|destruct (String.eqb_spec cls "section") as [->|Hs]]; cbn [orb].
    + split; [tauto|]. split; [now intros _ -> | now intros _ n rest ->].
    + split; [tauto|]. split; [now intros _ -> | now intros _ n rest ->].
    + split; [reflexivity|]. split; intros [H|H]; congruence.
  - split; [reflexivity|]. split; intros [H|H]; discriminate H.
Qed.

Lemma target_rendering_witness :
  fmt (Some "list_item"%string) (Element "target" (with_names []) []) (ctx_at 0 None)
  = Some []
  /\ fmt (Some "section"%string) (Element "target" (with_names [lit "top"]) [])
         (ctx_at 1 None)
     = Some [Str (lit ".. _top:")].
Proof.
  destruct (target_rendering (Some "list_item"%string) (with_names []) [] (ctx_at 0 None))
    as (H1 & _).
  destruct (target_rendering (Some "section"%string) (with_names [lit "top"]) []
              (ctx_at 1 None)) as (_ & _ & H3).
  split.
  - apply H1. intros [H|H]; discriminate H.
  - apply (H3 (or_intror eq_refl) (lit "top") []). reflexivity.
Defined.

(** ** Children a rule never looks at *)

Lemma sequence_chain_cons {A} (m : option (list A)) (ms : list (option (list A))) :
  (parts <- sequence (m :: ms) ;; Some (chain parts))
  = (r <- m ;; rest <- (parts <- sequence ms ;; Some (chain parts)) ;; Some (r ++ rest)).
Proof.
  cbn [sequence]. destruct m as [r|]; [|reflexivity]. cbn [bind].
  destruct (sequence ms); reflexivity.
Qed.

(** X18.  A definition list item renders its terms and definitions and
    nothing else: any other child is skipped without being formatted, so
    removing such children changes nothing, not even an error. *)
Theorem definition_list_item_ignores parent a children ctx :
  fmt parent (Element "definition_list_item" a children) ctx
  = fmt parent
        (Element "definition_list_item" a
           (List.filter (fun c => isinstance c "term" || isinstance c "definition")
                        children))
        ctx.
Proof.
  rewrite !fmt_Element.
  change (lookup "definition_list_item" rules) with (Some r_definition_list_item).
  cbn [run_rule]. unfold Formatters.definition_list_item.
  rewrite !combine_map_self, !List.map_map.
  induction children as [|c cs IH]; [reflexivity|].
  cbn [List.filter].
  destruct (isinstance c "term") eqn:Et; cbn [orb].
  - cbn [List.map]. rewrite !sequence_chain_cons, IH. rewrite Et. reflexivity.
  - destruct (isinstance c "definition") eqn:Ed.
    + cbn [List.map]. rewrite !sequence_chain_cons, IH. rewrite Et, Ed. reflexivity.
    + cbn [List.map]. rewrite sequence_chain_cons, IH. rewrite Et, Ed. cbn [bind].
      match goal with |- (rest <- ?m ;; _) = _ => destruct m end; reflexivity.
Qed.

Lemma combine_firstn {A B} (l : list A) (l' : list B) :
  List.combine (List.firstn (List.length l') l) l' = List.combine l l'.
Proof.
  revert l'. induction l as [|x l IH]; intros [|y l']; cbn; try reflexivity.
  now rewrite IH.
Qed.

(** X19.  A row renders one cell per declared column: entries beyond
    the declared columns are dropped without being formatted. *)
Theorem row_drops_extra_entries parent a entries ctx ws :
  colwidths ctx = Some ws ->
  fmt parent (Element "row" a entries) ctx
  = fmt parent (Element "row" a (List.firstn (List.length ws) entries)) ctx.
Proof.
  intros Hcw. rewrite !fmt_Element. change (lookup "row" rules) with (Some r_row).
  cbn [run_rule]. unfold Formatters.row. rewrite Hcw. cbn [bind].
  now rewrite <- List.firstn_map, combine_firstn.
Qed.

Lemma row_drops_extra_entries_witness :
  fmt None (el "row" [el "entry" [el "paragraph" [Text (lit "a")]];
                      el "entry" [Element "image" no_attributes []]])
      (with_colwidths (ctx_at 0 None) [5])
  = fmt None (el "row" [el "entry" [el "paragraph" [Text (lit "a")]]])
        (with_colwidths (ctx_at 0 None) [5]).
Proof.
  apply (row_drops_extra_entries None no_attributes
           [el "entry" [el "paragraph" [Text (lit "a")]];
            el "entry" [Element "image" no_attributes []]]
           (with_colwidths (ctx_at 0 None) [5]) [5]).
  reflexivity.
Defined.

(** ** Directives *)

(** X20.  A directive is rendered from the stored directive object
    alone, whatever its children, parent and context.  Its lines are
    exactly: the header [.. name::] joined by spaces with the arguments;
    one line [   :key:] or [   :key: value] per option, in order; and,
    only when there is content, an empty line followed by the content
    lines, each non-empty one behind three blanks.  Without a directive
    object it raises. *)
Theorem directive_lines parent a children ctx :
  (directive a = None -> fmt parent (Element "directive" a children) ctx = None)
  /\ forall d, directive a = Some d ->
       exists lines,
         lines = directive_text d
         /\ fmt parent (Element "directive" a children) ctx = Some (Strs lines)
         /\ List.hd [] lines
            = Py.join space ((lit ".. " ++ d_name d ++ lit "::") :: d_arguments d)
         /\ List.length lines
            = (1 + List.length (d_options d)
               + match d_content d with
                 | [] => 0
                 | _ :: _ => 1 + List.length (d_content d)
                 end)%nat
         /\ (d_content d = [] -> ~ List.In [] (List.tl lines)).
Proof.
  assert (E : fmt parent (Element "directive" a children) ctx = Formatters.directive a).
  { rewrite fmt_Element. reflexivity. }
  rewrite E. unfold Formatters.directive. split; [now intros ->|].
  intros d ->. cbn [bind]. exists (directive_text d).
  split; [reflexivity|]. split; [|split; [reflexivity|split]].
  - f_equal. f_equal. unfold directive_text. cbn [List.app]. f_equal. f_equal.
    + apply List.map_ext. now intros [k [v|]].
    + destruct (d_content d) as [|c0 cs]; [reflexivity|].
      unfold with_spaces. cbn [prepend_if_any List.map]. f_equal.
      f_equal; [now destruct c0|]. apply List.map_ext. now intros [|c l].
  - unfold directive_text. cbn [List.length].
    rewrite List.length_app, List.length_map.
    destruct (d_content d) as [|c0 cs]; [cbn; unfold str, char in *; lia|].
    cbn [List.length]. rewrite List.length_map. cbn [List.length].
    unfold str, char in *. lia.
  - intros Hc. unfold directive_text. rewrite Hc. cbn [List.tl].
    rewrite List.app_nil_r. intros Hin. apply List.in_map_iff in Hin.
    destruct Hin as ([k [v|]] & Hk & _); discriminate Hk.
Qed.

Lemma directive_lines_witness :
  exists lines,
    fmt None
        (Element "directive"
           (with_directive (mk_directive (lit "toctree") [] [(lit "maxdepth", Some (lit "2"))]
                                         [lit "intro"; []; lit "usage"]))
           [])
        (ctx_at 0 None)
    = Some (Strs lines)
    /\ lines = [lit ".. toctree::"; lit "   :maxdepth: 2"; [];
                lit "   intro"; []; lit "   usage"].
Proof.
  destruct (directive_lines None
              (with_directive (mk_directive (lit "toctree") []
                                 [(lit "maxdepth", Some (lit "2"))]
                                 [lit "intro"; []; lit "usage"]))
              [] (ctx_at 0 None)) as [_ H].
  destruct (H _ eq_refl) as (lines & L & E & _).
  exists lines. split; [exact E|]. rewrite L. reflexivity.
Defined.

(** ** Verbatim bodies *)







(** ** Preprocessing *)

Lemma node_induction (P : node -> Prop) :
  (forall s, P (Text s)) ->
  (forall tag a cs, List.Forall P cs -> P (Element tag a cs)) ->
  forall n, P n.
Proof.
  intros HT HE. fix IH 1. intros [s|tag a cs]; [apply HT|].
  apply HE. induction cs as [|c cs IHcs]; constructor; [apply IH | exact IHcs].
Qed.

Lemma type_name_preproc (n : node) : type_name (preproc n) = type_name n.
Proof. now destruct n. Qed.

Lemma type_name_set_target (n : node) : type_name (set_target n) = type_name n.
Proof. now destruct n. Qed.

Lemma mark_targets_cons2 (x y : node) (rest : list node) :
  mark_targets (x :: y :: rest)
  = (if isinstance x "reference" && isinstance y "target" then set_target x else x)
      :: mark_targets (y :: rest).
Proof. reflexivity. Qed.

Lemma mark_targets_map {B} (f : node -> B) (l : list node) :
  (forall x, f (set_target x) = f x) ->
  List.map f (mark_targets l) = List.map f l.
Proof.
  intros Hf. induction l as [|x [|y rest] IH]; [reflexivity | reflexivity|].
  rewrite mark_targets_cons2. cbn [List.map] in *. rewrite IH. f_equal.
  destruct (_ && _); [apply Hf | reflexivity].
Qed.

Lemma mark_targets_Forall (Q : node -> Prop) (l : list node) :
  (forall x, Q x -> Q (set_target x)) ->
  List.Forall Q l -> List.Forall Q (mark_targets l).
Proof.
  intros HQ. induction l as [|x [|y rest] IH]; intros H; [constructor | exact H|].
  rewrite mark_targets_cons2. inversion H; subst. constructor; [|now apply IH].
  destruct (_ && _); auto.
Qed.

Lemma forallb_map_eq {A B} (f : A -> B) (p : B -> bool) (l : list A) :
  List.forallb p (List.map f l) = List.forallb (fun x => p (f x)) l.
Proof. induction l as [|x l IH]; cbn; [reflexivity | now rewrite IH]. Qed.

(** X23.  After preprocessing no [system_message] node is left anywhere
    below the root; the node keeps its class, and its children are the
    children that are not system messages, in their order. *)
Theorem preproc_clean (n : node) :
  clean (preproc n) = true
  /\ type_name (preproc n) = type_name n
  /\ List.map type_name (node_children (preproc n))
     = List.filter (fun t => negb (String.eqb t "system_message"))
                   (List.map type_name (node_children n)).
Proof.
  split; [|split; [apply type_name_preproc|]].
  - induction n as [s|tag a cs IH] using node_induction; [reflexivity|].
    cbn [preproc clean].
    apply List.forallb_forall. intros x Hx. revert x Hx. apply List.Forall_forall.
    apply mark_targets_Forall; [now intros [s|t a' cs']|].
    induction IH as [|c cs Hc _ IHcs]; [constructor|].
    cbn [List.flat_map]. destruct (isinstance c "system_message") eqn:E; [exact IHcs|].
    cbn [List.app]. constructor; [|exact IHcs].
    unfold isinstance in *. rewrite type_name_preproc, E, Hc. reflexivity.
  - destruct n as [s|tag a cs]; [reflexivity|]. cbn [preproc node_children].
    rewrite mark_targets_map by apply type_name_set_target.
    induction cs as [|c cs IH]; [reflexivity|].
    cbn [List.flat_map List.map List.filter]. unfold isinstance at 1.
    destruct (String.eqb (type_name c) "system_message"); cbn [negb]; [exact IH|].
    cbn [List.app List.map]. now rewrite type_name_preproc, IH.
Qed.

Lemma mark_targets_head (y : node) (rest : list node) :
  exists y' rest',
    mark_targets (y :: rest) = y' :: rest' /\ type_name y' = type_name y.
Proof.
  destruct rest as [|z rest]; [now exists y, []|].
  rewrite mark_targets_cons2. eexists. eexists. split; [reflexivity|].
  destruct (_ && _); [apply type_name_set_target | reflexivity].
Qed.

Lemma set_target_twice (x : node) : set_target (set_target x) = set_target x.
Proof. now destruct x. Qed.

Lemma mark_targets_idempotent (l : list node) :
  mark_targets (mark_targets l) = mark_targets l.
Proof.
  induction l as [|x [|y rest] IH]; [reflexivity | reflexivity|].
  rewrite mark_targets_cons2.
  destruct (mark_targets_head y rest) as (y' & rest' & E & Hy).
  rewrite E in *. rewrite mark_targets_cons2, IH. f_equal.
  assert (Ey : isinstance y' "target" = isinstance y "target")
    by (unfold isinstance; now rewrite Hy).
  rewrite Ey.
  destruct (isinstance x "reference" && isinstance y "target") eqn:C.
  - unfold isinstance at 1. rewrite type_name_set_target. fold (isinstance x "reference").
    rewrite C. apply set_target_twice.
  - now rewrite C.
Qed.

(** X24.  Preprocessing is idempotent: a preprocessed tree is left
    unchanged by a second pass. *)
Theorem preproc_idempotent (n : node) : preproc (preproc n) = preproc n.
Proof.
  induction n as [s|tag a cs IH] using node_induction; [reflexivity|].
  cbn [preproc]. f_equal.
  set (L := List.flat_map
              (fun c => if isinstance c "system_message" then [] else [preproc c]) cs).
  assert (HQ : List.Forall
                 (fun x => isinstance x "system_message" = false /\ preproc x = x)
                 (mark_targets L)).
  { apply mark_targets_Forall.
    - intros x [H1 H2]. split.
      + unfold isinstance in *. now rewrite type_name_set_target.
      + destruct x as [s|t a' cs']; [reflexivity|].
        cbn [set_target preproc] in *. injection H2 as H2. now rewrite H2.
    - subst L. induction IH as [|c cs Hc _ IHcs]; [constructor|].
      cbn [List.flat_map]. destruct (isinstance c "system_message") eqn:E; [exact IHcs|].
      cbn [List.app]. constructor; [|exact IHcs]. split; [|exact Hc].
      unfold isinstance in *. now rewrite type_name_preproc. }
  assert (E : List.flat_map
                (fun c => if isinstance c "system_message" then [] else [preproc c])
                (mark_targets L) = mark_targets L).
  { induction HQ as [|x l [H1 H2] _ IHl]; [reflexivity|].
    cbn [List.flat_map]. rewrite H1, H2, IHl. reflexivity. }
  rewrite E. apply mark_targets_idempotent.
Qed.

(** ** Structural equality *)

Lemma node_eq_unfold (d1 d2 : node) :
  node_eq d1 d2
  = String.eqb (type_name d1) (type_name d2)
    && Nat.eqb (List.length (node_children d1)) (List.length (node_children d2))
    && List.forallb (fun p : node * node => node_eq (fst p) (snd p))
                    (List.combine (node_children d1) (node_children d2)).
Proof.
  destruct d1 as [s|tag a cs1]; cbn [node_eq node_children type_name List.combine List.forallb].
  - reflexivity.
  - f_equal. rewrite combine_map_l, forallb_map_eq. reflexivity.
Qed.

Lemma String_eqb_trans (a b c : string) :
  String.eqb a b = true -> String.eqb b c = true -> String.eqb a c = true.
Proof. rewrite !String.eqb_eq. congruence. Qed.

(** X25.  The structural equality of the oracle is an equivalence on
    trees that looks at classes and child counts only: texts and
    attributes play no part. *)
Theorem node_eq_equivalence :
  (forall d, node_eq d d = true)
  /\ (forall d1 d2, node_eq d1 d2 = node_eq d2 d1)
  /\ (forall d1 d2 d3, node_eq d1 d2 = true -> node_eq d2 d3 = true -> node_eq d1 d3 = true)
  /\ (forall s s', node_eq (Text s) (Text s') = true)
  /\ (forall tag a a' cs d, node_eq (Element tag a cs) d = node_eq (Element tag a' cs) d).
Proof.
  split; [|split; [|split; [|split]]].
  - induction d as [s|tag a cs IH] using node_induction; [reflexivity|].
    rewrite node_eq_unfold. cbn [type_name node_children].
    rewrite String.eqb_refl, Nat.eqb_refl. cbn [andb].
    induction IH as [|c cs Hc _ IHcs]; [reflexivity|].
    cbn [List.combine List.forallb fst snd]. now rewrite Hc, IHcs.
  - induction d1 as [s|tag a cs IH] using node_induction; intros d2.
    + rewrite (node_eq_unfold (Text s) d2), (node_eq_unfold d2 (Text s)).
      cbn [node_children List.combine List.forallb].
      rewrite String.eqb_sym, Nat.eqb_sym. f_equal.
      destruct (node_children d2); reflexivity.
    + rewrite (node_eq_unfold (Element tag a cs) d2), (node_eq_unfold d2 (Element tag a cs)).
      rewrite String.eqb_sym, Nat.eqb_sym. f_equal.
      cbn [node_children]. generalize (node_children d2) as cs2.
      induction IH as [|c cs Hc _ IHcs]; intros [|c2 cs2]; try reflexivity.
      cbn [List.combine List.forallb fst snd]. now rewrite Hc, IHcs.
  - induction d1 as [s|tag a cs IH] using node_induction; intros d2 d3 H12 H23.
    + rewrite node_eq_unfold in H12. rewrite (node_eq_unfold d2 d3) in H23.
      rewrite node_eq_unfold.
      cbn [node_children type_name List.combine List.forallb] in *.
      apply andb_prop in H12. destruct H12 as [H12 _].
      apply andb_prop in H12. destruct H12 as [Hn Hl].
      apply andb_prop in H23. destruct H23 as [H23 _].
      apply andb_prop in H23. destruct H23 as [Hn' Hl'].
      rewrite (String_eqb_trans _ _ _ Hn Hn').
      apply Nat.eqb_eq in Hl, Hl'. cbn [List.length] in Hl.
      rewrite <- Hl', <- Hl. reflexivity.
    + rewrite node_eq_unfold in H12. rewrite (node_eq_unfold d2 d3) in H23.
      rewrite node_eq_unfold.
      apply andb_prop in H12. destruct H12 as [H12 Hc12].
      apply andb_prop in H12. destruct H12 as [Hn Hl].
      apply andb_prop in H23. destruct H23 as [H23 Hc23].
      apply andb_prop in H23. destruct H23 as [Hn' Hl'].
      rewrite (String_eqb_trans _ _ _ Hn Hn').
      apply Nat.eqb_eq in Hl, Hl'. cbn [node_children] in *.
      replace (Nat.eqb (List.length cs) (List.length (node_children d3))) with true
        by (symmetry; apply Nat.eqb_eq; congruence).
      cbn [andb]. clear Hn Hn'.
      revert Hl Hl' Hc12 Hc23.
      generalize (node_children d2) as cs2. generalize (node_children d3) as cs3.
      induction IH as [|c cs Hc _ IHcs]; intros cs3 cs2 Hl Hl' Hc12 Hc23; [reflexivity|].
      destruct cs2 as [|c2 cs2]; [discriminate Hl|].
      destruct cs3 as [|c3 cs3]; [discriminate Hl'|].
      cbn [List.combine List.forallb fst snd List.length] in *.
      apply andb_prop in Hc12. destruct Hc12 as [A1 A2].
      apply andb_prop in Hc23. destruct Hc23 as [B1 B2].
      rewrite (Hc c2 c3 A1 B1). cbn [andb].
      apply (IHcs cs3 cs2); auto.
  - reflexivity.
  - reflexivity.
Qed.

(** ** Consistency oracle *)

Lemma run_fold (parse : str -> node) (doc : node) (ws : list (option Z)) :
  forall o,
    List.fold_left
      (fun (o : outcome) (w : option Z) =>
         match o with
         | Passed => check_width parse doc w
         | _ => o
         end) ws o
    = match o with
      | Passed =>
          match List.find (fun w => match check_width parse doc w with
                                    | Passed => false
                                    | _ => true
                                    end) ws with
          | Some w => check_width parse doc w
          | None => Passed
          end
      | _ => o
      end.
Proof.
  induction ws as [|w ws IH]; intros o; [now destruct o|].
  cbn [List.fold_left List.find]. rewrite IH.
  destruct o; try reflexivity.
  destruct (check_width parse doc w) eqn:E; cbn [List.find]; rewrite ?E; reflexivity.
Qed.

(** X26.  The oracle passes exactly when every one of its twelve widths
    passes; otherwise its outcome is that of the first width that does
    not pass, and later widths are not tried. *)
Theorem run_test_all_widths (parse : str -> node) (doc : node) :
  (run_test parse doc = Passed
   <-> List.Forall (fun w => check_width parse doc w = Passed) test_widths)
  /\ (run_test parse doc <> Passed ->
      exists before w after,
        test_widths = before ++ w :: after
        /\ List.Forall (fun w' => check_width parse doc w' = Passed) before
        /\ check_width parse doc w = run_test parse doc).
Proof.
  unfold run_test. rewrite run_fold.
  generalize test_widths as ws. intros ws. split.
  - induction ws as [|w ws IH]; cbn [List.find]; [split; [constructor | reflexivity]|].
    destruct (check_width parse doc w) eqn:E.
    + rewrite IH. split; [now constructor | now inversion 1].
    + rewrite E. split; [discriminate | inversion 1; congruence].
    + rewrite E. split; [discriminate | inversion 1; congruence].
  - induction ws as [|w ws IH]; cbn [List.find]; [congruence|].
    destruct (check_width parse doc w) eqn:E.
    + intros H. destruct (IH H) as (before & w' & after & -> & Hb & Hw).
      exists (w :: before), w', after. split; [reflexivity|]. split; [now constructor | exact Hw].
    + intros _. exists [], w, ws. rewrite E. split; [reflexivity|]. split; [apply List.Forall_nil | reflexivity].
    + intros _. exists [], w, ws. rewrite E. split; [reflexivity|]. split; [apply List.Forall_nil | reflexivity].
Qed.

Lemma run_test_all_widths_witness :
  run_test (fun _ => seven_levels) seven_levels <> Passed
  /\ exists before w after,
       test_widths = before ++ w :: after
       /\ check_width (fun _ => seven_levels) seven_levels w
          = run_test (fun _ => seven_levels) seven_levels.
Proof.
  assert (H : run_test (fun _ => seven_levels) seven_levels <> Passed)
    by (vm_compute; discriminate).
  split; [exact H|].
  destruct (run_test_all_widths (fun _ => seven_levels) seven_levels) as [_ H2].
  destruct (H2 H) as (before & w & after & E & _ & Hw).
  exists before, w, after. split; [exact E | exact Hw].
Defined.

(** ** Rules that need their context *)

(** X27.  A list item needs a bullet and a row, table head or table
    body needs column widths: without them, in particular when such a
    node is formatted on its own, formatting raises, whatever the
    children. *)
Theorem context_required parent a children ctx :
  (bullet ctx = None -> fmt parent (Element "list_item" a children) ctx = None)
  /\ (colwidths ctx = None ->
      fmt parent (Element "row" a children) ctx = None
      /\ fmt parent (Element "tbody" a children) ctx = None
      /\ fmt parent (Element "thead" a children) ctx = None)
  /\ (forall w tag,
        List.In tag ["list_item"; "row"; "tbody"; "thead"]%string ->
        format_node w (Element tag a children) = None).
Proof.
  assert (B : forall p c, bullet c = None -> fmt p (Element "list_item" a children) c = None).
  { intros p c H. rewrite fmt_Element.
    change (lookup "list_item" rules) with (Some r_list_item).
    cbn [run_rule]. unfold Formatters.list_item. now rewrite H. }
  assert (C : forall p c, colwidths c = None ->
                fmt p (Element "row" a children) c = None
                /\ fmt p (Element "tbody" a children) c = None
                /\ fmt p (Element "thead" a children) c = None).
  { intros p c H. rewrite !fmt_Element.
    change (lookup "row" rules) with (Some r_row).
    change (lookup "tbody" rules) with (Some r_tbody).
    change (lookup "thead" rules) with (Some r_thead).
    cbn [run_rule]. unfold Formatters.thead, Formatters.tbody, Formatters.row.
    now rewrite H. }
  split; [apply B|]. split; [apply C|].
  intros w tag Hin. unfold format_node.
  destruct (C None (mkFormatContext 0 w None None) eq_refl) as (C1 & C2 & C3).
  cbn [List.In] in Hin.
  destruct Hin as [<-|[<-|[<-|[<-|[]]]]]; [rewrite B by reflexivity | rewrite C1 | rewrite C2 | rewrite C3];
    reflexivity.
Qed.

Lemma context_required_witness :
  fmt None (el "list_item" [el "paragraph" [Text (lit "a")]]) (ctx_at 0 None) = None
  /\ format_node (Some 72) (el "row" []) = None.
Proof.
  destruct (context_required None no_attributes [el "paragraph" [Text (lit "a")]]
              (ctx_at 0 None)) as (H1 & _ & _).
  destruct (context_required None no_attributes [] (ctx_at 0 None)) as (_ & _ & H3).
  split; [apply H1; reflexivity | apply (H3 (Some 72) "row"%string); cbn; tauto].
Defined.

Lemma list_item_layout_witness :
  fmt None (el "list_item" [el "paragraph" [Text (lit "one two")]; el "paragraph" [Text (lit "x")]])
      (with_bullet (ctx_at 0 (Some 6)) (lit "#."))
  = Some (Strs [lit "#. one"; lit "   two"; []; lit "   x"]).
Proof.
  apply (list_item_layout None no_attributes
           [el "paragraph" [Text (lit "one two")]; el "paragraph" [Text (lit "x")]]
           (with_bullet (ctx_at 0 (Some 6)) (lit "#.")) (lit "#.")
           [[Str (lit "one"); Str (lit "two")]; [Str (lit "x")]]
           [lit "one"; lit "two"; []; lit "x"]);
    reflexivity.
Defined.

(** ** Terms *)

(** X28.  A term whose children render is exactly one line: its tokens
    joined by single spaces, never wrapped and free of line breaks, at
    any width; a term without tokens is one empty line. *)
Theorem term_one_line parent a children ctx parts :
  render_children "term" children ctx = Some parts ->
  exists text,
    fmt parent (Element "term" a children) ctx = Some [Str text]
    /\ text = Py.join space (tokens (chain parts))
    /\ one_line text.
Proof.
  intros Hparts. exists (Py.join space (tokens (chain parts))).
  split; [|split; [reflexivity|]].
  - rewrite fmt_Element. change (lookup "term" rules) with (Some r_term).
    cbn [run_rule]. unfold Formatters.term.
    rewrite fmt_children_kids, Hparts. cbn [bind]. now rewrite wrap_text_zero.
  - apply one_line_join; [apply one_line_space | apply tokens_one_line].
Qed.

Lemma term_one_line_witness :
  exists text,
    fmt None (el "term" [Text (lit "a long term"); el "emphasis" [Text (lit "x")]])
        (ctx_at 0 (Some 3))
    = Some [Str text]
    /\ text = lit "a long term\ *x*".
Proof.
  destruct (term_one_line None no_attributes
              [Text (lit "a long term"); el "emphasis" [Text (lit "x")]]
              (ctx_at 0 (Some 3))
              [[Str (lit "a long term")]; [inline_markup (lit "*x*")]] eq_refl)
    as (text & E & T & _).
  exists text. split; [exact E|]. rewrite T. reflexivity.
Defined.

(** ** Table groups *)

Lemma filter_filter_sub {A} (p q : A -> bool) (l : list A) :
  (forall x, p x = true -> q x = true) ->
  List.filter p (List.filter q l) = List.filter p l.
Proof.
  intros H. induction l as [|x l IH]; [reflexivity|].
  cbn [List.filter]. destruct (q x) eqn:Q.
  - cbn [List.filter]. now rewrite IH.
  - rewrite IH. destruct (p x) eqn:P; [|reflexivity].
    rewrite (H x P) in Q. discriminate Q.
Qed.

(** X29.  A table group looks only at its column specifications, its
    head and its body: any other child is skipped without being
    formatted, so removing such children changes nothing. *)
Theorem tgroup_ignores parent a children ctx :
  fmt parent (Element "tgroup" a children) ctx
  = fmt parent
        (Element "tgroup" a
           (List.filter
              (fun c => isinstance c "colspec" || isinstance c "thead"
                        || isinstance c "tbody")
              children))
        ctx.
Proof.
  rewrite !fmt_Element. change (lookup "tgroup" rules) with (Some r_tgroup).
  cbn [run_rule]. unfold Formatters.tgroup.
  rewrite filter_filter_sub by (intros x ->; reflexivity).
  destruct (sequence _) as [ws|]; [|reflexivity]. cbn [bind].
  rewrite !combine_map_self, !List.map_map.
  match goal with
  | |- (parts <- sequence (List.map ?G children) ;; _) = _ =>
      assert (E : (parts <- sequence (List.map G children) ;; Some (chain parts))
                  = (parts <- sequence
                                (List.map G
                                   (List.filter
                                      (fun c => isinstance c "colspec" || isinstance c "thead"
                                                || isinstance c "tbody")
                                      children)) ;;
                     Some (chain parts)))
  end.
  { induction children as [|c cs IH]; [reflexivity|].
    cbn [List.filter].
    destruct (isinstance c "colspec") eqn:Ec; cbn [orb].
    - cbn [List.map]. rewrite !sequence_chain_cons, IH. now rewrite Ec.
    - destruct (isinstance c "thead") eqn:Eh; cbn [orb].
      + cbn [List.map]. rewrite !sequence_chain_cons, IH. now rewrite Ec, Eh.
      + destruct (isinstance c "tbody") eqn:Eb.
        * cbn [List.map]. rewrite !sequence_chain_cons, IH. now rewrite Ec, Eh, Eb.
        * cbn [List.map]. rewrite sequence_chain_cons, IH. rewrite Ec, Eh, Eb.
          cbn [bind List.app].
          match goal with |- (rest <- ?m ;; _) = _ => destruct m end; reflexivity. }
  match type of E with
  | bind ?m1 _ = bind ?m2 _ =>
      destruct m1 as [p1|], m2 as [p2|]; cbn [bind] in *; congruence
  end.
Qed.

(** ** Worked instances *)

Lemma wrap_text_no_empty_line_witness :
  wrap_text (Some 10) [Str (lit "  "); Str []] = []
  /\ wrap_text None [Str (lit "  "); Str []] = [[]].
Proof.
  destruct (wrap_text_no_empty_line 10 [Str (lit "  "); Str []]) as (_ & _ & H).
  apply H. reflexivity.
Defined.

Lemma split_words_texts_witness :
  List.map text (split_words (Str (lit "   "))) = [[]].
Proof.
  destruct (split_words_texts (Str (lit "   "))) as [_ H].
  apply H. reflexivity.
Defined.

Lemma node_eq_equivalence_witness :
  node_eq (el "paragraph" [Text (lit "a")])
          (Element "paragraph" (with_names [lit "n"]) [Text (lit "c")]) = true.
Proof.
  destruct node_eq_equivalence as (_ & _ & Htrans & _).
  apply (Htrans _ (el "paragraph" [Text (lit "b")])); reflexivity.
Defined.
